(** * CaptureAPI: the [capture] edge function

    A shallow embedding of
    [script/CaptureAPI/supabase/functions/capture/index.ts]: the request
    forwarder that resolves an upstream from the inbound path, forwards the
    request, and logs the exchange to a table with a storage fallback.

    Layout:
    - [JS]        the JavaScript values and string/array primitives used;
    - [Http]      headers, bodies, requests, responses as the Fetch API has them;
    - [Resolve]   lines 24-85, target resolution (pure);
    - [Capture]   the whole handler, in a small error/trace monad over a
                  [World] that answers the external calls;
    - [Observe], [Calls]  what a run shows: rows, objects, reads, calls, and
                  the notions the properties are stated with;
    - [Installer] the Docker set-up shell script;
    - [Examples], [Worlds]  concrete requests and worlds;
    - the lemma modules, block by block, and the properties of the handler. *)

From Stdlib Require Import String Ascii List ZArith Bool Lia.
Import ListNotations.

Local Open Scope string_scope.
Local Open Scope Z_scope.

(* ------------------------------------------------------------------------- *)
(** ** JavaScript primitives *)

Module JS.

(** The values a property read of a plain object can produce here: a string
    that the program stored, a function inherited from [Object.prototype],
    or nothing. *)
Inductive value : Type :=
| Undefined
| Null
| Str (s : string)
| Fun (name : string).

(** [ToBoolean]. *)
Definition truthy (v : value) : bool :=
  match v with
  | Undefined | Null => false
  | Str s => negb (s =? "")%string
  | Fun _ => true
  end.

(** [a || b]. *)
Definition or (a b : value) : value := if truthy a then a else b.

Definition of_option (o : option string) : value :=
  match o with Some s => Str s | None => Null end.

(** A plain object with string values: own properties in insertion order. *)
Definition object := list (string * string).

Fixpoint own (o : object) (key : string) : option string :=
  match o with
  | [] => None
  | (k, v) :: rest => if (k =? key)%string then Some v else own rest key
  end.

(** Property names every plain object inherits from [Object.prototype]
    (ECMA-262 20.1.3 and Annex B.2.2; Deno deletes the [__proto__]
    accessor at start-up, so it is not listed). All of them are functions. *)
Definition Object_prototype : list string :=
  [ "constructor"; "hasOwnProperty"; "isPrototypeOf"; "propertyIsEnumerable";
    "toLocaleString"; "toString"; "valueOf";
    "__defineGetter__"; "__defineSetter__"; "__lookupGetter__"; "__lookupSetter__" ].

Definition inherited (key : string) : bool :=
  existsb (String.eqb key) Object_prototype.

(** [o[key]]: own property first, then the prototype. *)
Definition get (o : object) (key : string) : value :=
  match own o key with
  | Some v => Str v
  | None => if inherited key then Fun key else Undefined
  end.

(** Property write, as [Object.fromEntries] does it entry by entry. *)
Fixpoint set (o : object) (key val : string) : object :=
  match o with
  | [] => [(key, val)]
  | (k, v) :: rest =>
      if (k =? key)%string then (k, val) :: rest else (k, v) :: set rest key val
  end.

Definition fromEntries (es : list (string * string)) : object :=
  fold_left (fun o kv => set o (fst kv) (snd kv)) es [].

(** [s.split(sep)] for a one-character separator. *)
Fixpoint split (sep : ascii) (s : string) : list string :=
  match s with
  | EmptyString => [EmptyString]
  | String c rest =>
      if Ascii.eqb c sep then EmptyString :: split sep rest
      else match split sep rest with
           | [] => [String c EmptyString]
           | w :: ws => String c w :: ws
           end
  end.

(** [xs.filter(Boolean)] on an array of strings. *)
Definition filter_Boolean (xs : list string) : list string :=
  filter (fun s => negb (s =? "")%string) xs.

(** [xs.join(sep)]. *)
Definition join (sep : string) (xs : list string) : string :=
  String.concat sep xs.

(** [xs.slice(start)]: a negative [start] counts from the end. *)
Definition slice (start : Z) (xs : list string) : list string :=
  if start <? 0
  then skipn (Z.to_nat (Z.max 0 (Z.of_nat (length xs) + start))) xs
  else skipn (Z.to_nat start) xs.

(** [xs.indexOf(x)]: the first index holding [x], or -1. *)
Fixpoint indexOf_from (i : Z) (x : string) (xs : list string) : Z :=
  match xs with
  | [] => -1
  | y :: rest => if (y =? x)%string then i else indexOf_from (i + 1) x rest
  end.

Definition indexOf (x : string) (xs : list string) : Z := indexOf_from 0 x xs.

(** [xs[i]]. *)
Definition at_index (xs : list string) (i : nat) : option string := nth_error xs i.

(** [s.includes(needle)]. *)
Fixpoint includes (s needle : string) : bool :=
  if String.prefix needle s then true
  else match s with
       | EmptyString => false
       | String _ rest => includes rest needle
       end.

(** [s.replace(/\/$/, '')]: one trailing slash removed. *)
Fixpoint strip_trailing_slash (s : string) : string :=
  match s with
  | EmptyString => EmptyString
  | String c EmptyString => if Ascii.eqb c "/" then EmptyString else s
  | String c rest => String c (strip_trailing_slash rest)
  end.

(** [s.replace(/^\//, '')]: one leading slash removed. *)
Definition strip_leading_slash (s : string) : string :=
  match s with
  | String c rest => if Ascii.eqb c "/" then rest else s
  | EmptyString => EmptyString
  end.

(** [s.replace(/[:.]/g, '-')]. *)
Fixpoint dash_colons_dots (s : string) : string :=
  match s with
  | EmptyString => EmptyString
  | String c rest =>
      String (if (Ascii.eqb c ":" || Ascii.eqb c ".")%bool then "-"%char else c)
             (dash_colons_dots rest)
  end.

(** [String.prototype.toLowerCase] on ASCII letters. *)
Definition lower_ascii (c : ascii) : ascii :=
  let n := N_of_ascii c in
  if ((65 <=? n) && (n <=? 90))%N then ascii_of_N (n + 32) else c.

Fixpoint toLowerCase (s : string) : string :=
  match s with
  | EmptyString => EmptyString
  | String c rest => String (lower_ascii c) (toLowerCase rest)
  end.

(** [JSON.stringify(s)] for a string: the quoted, escaped text
    (ECMA-262 25.5.2.3 QuoteJSONString). *)
Definition dquote : string := String "034"%char EmptyString.

Definition hex_digit (n : N) : ascii :=
  if (n <? 10)%N then ascii_of_N (48 + n) else ascii_of_N (87 + n).

Definition quote_char (c : ascii) : string :=
  let n := N_of_ascii c in
  if (n =? 34)%N then "\" ++ dquote
  else if (n =? 92)%N then "\\"
  else if (n =? 8)%N then "\b"
  else if (n =? 9)%N then "\t"
  else if (n =? 10)%N then "\n"
  else if (n =? 12)%N then "\f"
  else if (n =? 13)%N then "\r"
  else if (n <? 32)%N
       then "\u00" ++ String (hex_digit (n / 16)) (String (hex_digit (n mod 16)) "")
  else String c "".

Fixpoint quote_chars (s : string) : string :=
  match s with
  | EmptyString => EmptyString
  | String c rest => quote_char c ++ quote_chars rest
  end.

Definition JSON_quote (s : string) : string := dquote ++ quote_chars s ++ dquote.

End JS.

(* ------------------------------------------------------------------------- *)
(** ** The Fetch API objects the handler touches *)

Module Http.

(** A [Headers] object: its header list. The platform stores names in lower
    case and combines repeated names, so a name occurs once. *)
Definition headers := list (string * string).

(** [new Headers(init)] from a plain object. *)
Definition new_Headers (init : JS.object) : headers :=
  map (fun kv => (JS.toLowerCase (fst kv), snd kv)) init.

(** [h.get(name)]: [None] is [null]. *)
Fixpoint get (h : headers) (name : string) : option string :=
  match h with
  | [] => None
  | (k, v) :: rest =>
      if (k =? JS.toLowerCase name)%string then Some v else get rest name
  end.

Definition has (h : headers) (name : string) : bool :=
  match get h name with Some _ => true | None => false end.

(** [h.delete(name)]. *)
Definition delete (h : headers) (name : string) : headers :=
  filter (fun kv => negb (fst kv =? JS.toLowerCase name)%string) h.

(** [h.entries()]. *)
Definition entries (h : headers) : list (string * string) := h.

(** A body: absent, or a byte stream carrying [data]. [intact = false] is a
    stream that errors while it is read (a reset connection, a malformed
    chunk), after which no reader obtains the text. *)
Inductive body : Type :=
| NoBody
| Bytes (data : string) (intact : bool).

(** The bytes a body carries. *)
Definition body_bytes (b : body) : string :=
  match b with
  | NoBody => ""
  | Bytes data _ => data
  end.

Record URL : Type := mkURL {
  pathname : string;                       (* percent-encoded, starts with "/" *)
  search : string;                         (* "" or "?..." verbatim *)
  searchParams : list (string * string)    (* decoded pairs, in order *)
}.

(** [url.searchParams.get(name)]: the first value. *)
Fixpoint searchParams_get (ps : list (string * string)) (name : string)
  : option string :=
  match ps with
  | [] => None
  | (k, v) :: rest => if (k =? name)%string then Some v else searchParams_get rest name
  end.

Record Request : Type := mkRequest {
  method : string;
  url : URL;
  req_headers : headers;
  req_body : body
}.

Record Response : Type := mkResponse {
  status : Z;
  res_headers : headers;
  res_body : body
}.

(** [new Response(text, { status, headers })] with a string body: status
    defaults to 200, and the body's type becomes the content type unless the
    init headers name one (Fetch, "initialize a response"). *)
Definition new_Response (text : string) (init_status : option Z)
    (init_headers : JS.object) : Response :=
  let h := new_Headers init_headers in
  {| status := match init_status with Some s => s | None => 200 end;
     res_headers :=
       if has h "content-type" then h
       else (h ++ [("content-type", "text/plain;charset=UTF-8")])%list;
     res_body := Bytes text true |}.

End Http.

(* ------------------------------------------------------------------------- *)
(** ** Target resolution (index.ts lines 24-85) *)

Module Resolve.

Import Http.

Definition ENDPOINT_MAP : JS.object :=
  [ ("anthropic", "https://api.anthropic.com");
    ("openai", "https://api.openai.com");
    ("deepseek", "https://api.deepseek.com");
    ("gemini", "https://generativelanguage.googleapis.com");
    ("groq", "https://api.groq.com/openai");
    ("xrapi", "https://api.nextxr.site");
    ("echo", "https://echo.free.beeceptor.com") ].

(** [url.pathname.split('/').filter(Boolean)]. *)
Definition pathSegments (u : URL) : list string :=
  JS.filter_Boolean (JS.split "/" (pathname u)).

(** The [for] loop of lines 46-52: the first index [i] with a truthy
    [ENDPOINT_MAP[pathSegments[i]]], together with that segment;
    [(-1, "")] when the loop runs to the end. *)
Fixpoint alias_scan (i : Z) (segs : list string) : Z * string :=
  match segs with
  | [] => (-1, "")
  | s :: rest =>
      if JS.truthy (JS.get ENDPOINT_MAP s) then (i, s)
      else alias_scan (i + 1) rest
  end.

(** [req.headers.get('x-proxy-target') || url.searchParams.get('_target')]. *)
Definition override (req : Request) : JS.value :=
  JS.or (JS.of_option (get (req_headers req) "x-proxy-target"))
        (JS.of_option (searchParams_get (searchParams (url req)) "_target")).

(** ['/' + pathSegments.slice(k).join('/')]. *)
Definition after (k : Z) (segs : list string) : string :=
  "/" ++ JS.join "/" (JS.slice k segs).

(** Lines 35-85: the final values of [targetBase] and [proxyPath]. *)
Definition resolve (req : Request) : JS.value * string :=
  let targetBase := override req in
  let proxyPath := pathname (url req) in
  let segs := pathSegments (url req) in
  if negb (JS.truthy targetBase) then
    let '(aliasIndex, matchedAlias) := alias_scan 0 segs in
    if negb (aliasIndex =? -1) then
      (JS.get ENDPOINT_MAP matchedAlias, after (aliasIndex + 1) segs)
    else
      let targetBase := JS.Str "https://api.anthropic.com" in
      let funcNameIndex := JS.indexOf "capture" segs in
      if negb (funcNameIndex =? -1) then
        (targetBase, after (funcNameIndex + 1) segs)
      else if ((3 <=? Z.of_nat (length segs))
               && match JS.at_index segs 0 with
                  | Some s => (s =? "functions")%string | None => false end
               && match JS.at_index segs 1 with
                  | Some s => (s =? "v1")%string | None => false end)%bool
      then (targetBase, after 3 segs)
      else (targetBase, proxyPath)
  else
    let funcNameIndex := JS.indexOf "capture" segs in
    if negb (funcNameIndex =? -1) then
      (targetBase, after (funcNameIndex + 1) segs)
    else (targetBase, proxyPath).

End Resolve.

(* ------------------------------------------------------------------------- *)
(** ** The handler (index.ts lines 10-229) *)

Module Capture.

Import Http.

(** A call either returns or throws; [Throw] carries [err.message]. *)
Inductive result (A : Type) : Type :=
| Ok (a : A)
| Throw (message : string).
Arguments Ok {A} a.
Arguments Throw {A} message.

(** The row handed to [from('api_logs').insert]. *)
Record LogRow : Type := mkLogRow {
  row_method : string;
  row_url : string;
  request_headers : JS.object;
  request_body : option string;
  response_status : Z;
  response_headers : JS.object;
  response_body : option string;
  duration_ms : Z;
  client_ip : option string
}.

(** The [logEntry] document uploaded by the fallback. [JSON.stringify] of it
    is kept as the document itself. *)
Record LogEntry : Type := mkLogEntry {
  meta_method : string;
  meta_url : string;
  meta_status : Z;
  meta_duration : Z;
  meta_ip : JS.value;
  entry_request_headers : JS.object;
  entry_request_body : option string;
  entry_response_headers : JS.object;
  entry_response_body : option string
}.

(** What [createClient(url, key)] hands back. *)
Record Client : Type := mkClient {
  client_url : string;
  client_key : string
}.

(** Everything outside the handler: the environment, the platform's URL
    parser and text decoder, the upstream, the clock, and the backend the
    supabase-js client talks to. An [{ error }] result is [Some message]
    for an error and [None] for [null]. *)
Record World : Type := mkWorld {
  env_get : string -> option string;
  URL_href : string -> string -> result string;
  utf8_decode : string -> string;
  fetch : string -> string -> headers -> body -> result Response;
  Date_now_before : Z;
  Date_now_after : Z;
  createClient : string -> string -> result Client;
  insert : Client -> string -> LogRow -> result (option string);
  getBucket : Client -> string -> result (option string);
  createBucket : Client -> string -> result (option string);
  upload : Client -> string -> string -> LogEntry -> string -> result (option string);
  toISOString : string;
  randomUUID : string
}.

(** The observable effects of one invocation, in order, each external call
    with what it answered. *)
Inductive event : Type :=
| Console (level message : string)
| ReadRequestText (outcome : result string)
| Fetch (target method : string) (h : headers) (b : body) (outcome : result Response)
| ReadResponseText (outcome : result string)
| Insert (table : string) (row : LogRow) (outcome : result (option string))
| GetBucket (bucket : string) (outcome : result (option string))
| CreateBucket (bucket : string) (outcome : result (option string))
| Upload (bucket path : string) (doc : LogEntry) (contentType : string)
         (outcome : result (option string)).

(** Computations: the events emitted, then a value or a thrown error. *)
Definition M (A : Type) : Type := list event * result A.

Definition ret {A} (a : A) : M A := ([], Ok a).

Definition bind {A B} (m : M A) (f : A -> M B) : M B :=
  match m with
  | (t, Ok a) => let '(t', r) := f a in ((t ++ t')%list, r)
  | (t, Throw e) => (t, Throw e)
  end.

Definition lift {A} (r : result A) : M A := ([], r).

Definition emit (e : event) : M unit := ([e], Ok tt).

(** An external call, recorded with its outcome. *)
Definition call {A} (e : result A -> event) (r : result A) : M A := ([e r], r).

(** [try { m } catch (err) { h err.message }]. *)
Definition try_catch {A} (m : M A) (h : string -> M A) : M A :=
  match m with
  | (t, Throw e) => let '(t', r) := h e in ((t ++ t')%list, r)
  | ok => ok
  end.

Notation "x <- m ;; k" := (bind m (fun x => k))
  (at level 61, m at next level, right associativity).
Notation "m ;;; k" := (bind m (fun _ => k))
  (at level 61, right associativity).

Definition corsHeaders : JS.object :=
  [ ("Access-Control-Allow-Origin", "*");
    ("Access-Control-Allow-Headers",
     "authorization, x-client-info, apikey, content-type, x-proxy-target, x-anthropic-version, anthropic-version");
    ("Access-Control-Allow-Methods", "POST, GET, OPTIONS, PUT, DELETE, PATCH") ].

(** [o[key] || ''] for a [key] that is not an inherited name: the read is a
    string or [undefined]. *)
Definition get_or_empty (o : JS.object) (key : string) : string :=
  match JS.or (JS.get o key) (JS.Str "") with
  | JS.Str s => s
  | _ => ""
  end.

(** [o[key] || null], same proviso. *)
Definition get_or_null (o : JS.object) (key : string) : option string :=
  match JS.or (JS.get o key) JS.Null with
  | JS.Str s => Some s
  | _ => None
  end.

(** [body.text()]. *)
Definition text (w : World) (b : body) : result string :=
  match b with
  | NoBody => Ok ""
  | Bytes data true => Ok (utf8_decode w data)
  | Bytes _ false => Throw "error reading a body from connection"
  end.

(** [Deno.env.get(name) ?? '']. *)
Definition env_or_empty (w : World) (name : string) : string :=
  match env_get w name with Some v => v | None => "" end.

(** Line 88, [targetBase.replace(/\/$/, '')]: only a string has [replace]. *)
Definition normalizedTargetBase (targetBase : JS.value) : result string :=
  match targetBase with
  | JS.Str s => Ok (JS.strip_trailing_slash s)
  | JS.Fun _ => Throw "targetBase.replace is not a function"
  | JS.Null => Throw "Cannot read properties of null (reading 'replace')"
  | JS.Undefined => Throw "Cannot read properties of undefined (reading 'replace')"
  end.

(** Lines 87-91. *)
Definition targetUrl (w : World) (req : Request) : result string :=
  let '(targetBase, proxyPath) := Resolve.resolve req in
  match normalizedTargetBase targetBase with
  | Throw e => Throw e
  | Ok base =>
      let normalizedProxyPath := JS.strip_leading_slash proxyPath in
      match URL_href w normalizedProxyPath (base ++ "/") with
      | Throw e => Throw e
      | Ok href => Ok (href ++ search (url req))
      end
  end.

(** Lines 93-104. *)
Definition read_request_body (w : World) (req : Request)
    (requestHeaders : JS.object) : M (option string) :=
  let contentType := get_or_empty requestHeaders "content-type" in
  if (JS.includes contentType "application/json"
      || JS.includes contentType "text/")%bool
  then
    try_catch
      (s <- call ReadRequestText (text w (req_body req)) ;; ret (Some s))
      (fun e => emit (Console "error" ("Error reading request body " ++ e)) ;;;
                ret None)
  else ret None.

(** The four variables the forwarding block leaves behind. *)
Record Forwarded : Type := mkForwarded {
  response : Response;
  responseStatus : Z;
  responseHeaders : JS.object;
  responseBody : option string
}.

Definition STREAMING : string := "[STREAMING RESPONSE]".

(** Lines 113-148. Nothing after the [fetch] call can throw inside the
    [try], so the [catch] runs with [responseHeaders] still [{}]. *)
Definition forward (w : World) (target method : string) (h : headers)
    (b : body) : M Forwarded :=
  try_catch
    (response <- call (Fetch target method h b) (fetch w target method h b) ;;
     let responseStatus := status response in
     let responseHeaders := JS.fromEntries (entries (res_headers response)) in
     let contentTypeRes := get_or_empty responseHeaders "content-type" in
     let isStreaming := JS.includes contentTypeRes "text/event-stream" in
     responseBody <-
       (if isStreaming then ret (Some STREAMING)
        else if (JS.includes contentTypeRes "application/json"
                 || JS.includes contentTypeRes "text/")%bool
        then
          try_catch
            (s <- call ReadResponseText (text w (res_body response)) ;;
             ret (Some s))
            (fun _ => ret (Some "[Error reading response body]"))
        else ret None) ;;
     ret (mkForwarded response responseStatus responseHeaders responseBody))
    (fun message =>
       emit (Console "error" ("Fetch error: " ++ message)) ;;;
       let responseBody := "Error connecting to upstream: " ++ message in
       ret (mkForwarded (new_Response responseBody (Some 502) [])
                        502 [] (Some responseBody))).

(** Lines 178-218, the storage fallback. *)
Definition storage_fallback (w : World) (supabaseAdmin : Client)
    (requestMethod target : string) (requestHeaders : JS.object)
    (requestBody : option string) (f : Forwarded) (duration : Z) : M unit :=
  try_catch
    (let bucketName := "capture_logs" in
     bucketError <- call (GetBucket bucketName)
                         (getBucket w supabaseAdmin bucketName) ;;
     (match bucketError with
      | Some message =>
          if JS.includes message "not found"
          then call (CreateBucket bucketName)
                    (createBucket w supabaseAdmin bucketName) ;;; ret tt
          else ret tt
      | None => ret tt
      end) ;;;
     let timestamp := JS.dash_colons_dots (toISOString w) in
     let logEntry :=
       mkLogEntry requestMethod target (responseStatus f) duration
                  (JS.get requestHeaders "x-forwarded-for")
                  requestHeaders requestBody
                  (responseHeaders f) (responseBody f) in
     let filePath :=
       timestamp ++ "_" ++ substring 0 8 (randomUUID w) ++ ".json" in
     call (Upload bucketName filePath logEntry "application/json")
          (upload w supabaseAdmin bucketName filePath logEntry "application/json") ;;;
     ret tt)
    (fun e => emit (Console "error" ("Storage fallback also failed: " ++ e))).

(** Lines 152-219. *)
Definition log_exchange (w : World) (requestMethod target : string)
    (requestHeaders : JS.object) (requestBody : option string)
    (f : Forwarded) (duration : Z) : M unit :=
  let supabaseUrl := env_or_empty w "SUPABASE_URL" in
  let supabaseAnonKey := env_or_empty w "SUPABASE_ANON_KEY" in
  let supabaseServiceKey := env_or_empty w "SUPABASE_SERVICE_ROLE_KEY" in
  supabaseAdmin <- lift (createClient w supabaseUrl supabaseServiceKey) ;;
  supabase <- lift (createClient w supabaseUrl supabaseAnonKey) ;;
  let row :=
    mkLogRow requestMethod target requestHeaders requestBody
             (responseStatus f) (responseHeaders f) (responseBody f)
             duration (get_or_null requestHeaders "x-forwarded-for") in
  dbError <- call (Insert "api_logs" row)
                  (insert w supabaseAdmin "api_logs" row) ;;
  match dbError with
  | Some message =>
      emit (Console "warn"
              ("DB Logging failed (table missing?), falling back to Storage: "
               ++ message)) ;;;
      storage_fallback w supabaseAdmin requestMethod target requestHeaders
                       requestBody f duration
  | None => ret tt
  end.

(** Lines 16-221, the body of the outer [try]. *)
Definition proxy (w : World) (req : Request) : M Response :=
  let requestMethod := method req in
  let requestHeaders := JS.fromEntries (entries (req_headers req)) in
  target <- lift (targetUrl w req) ;;
  requestBody <- read_request_body w req requestHeaders ;;
  let forwardHeaders := delete (delete (req_headers req) "host") "x-proxy-target" in
  emit (Console "log" ("Proxying " ++ requestMethod ++ " to " ++ target)) ;;;
  let startTime := Date_now_before w in
  f <- forward w target requestMethod forwardHeaders (req_body req) ;;
  let duration := Date_now_after w - startTime in
  log_exchange w requestMethod target requestHeaders requestBody f duration ;;;
  ret (response f).

(** [JSON.stringify({ error: message })]. *)
Definition error_json (message : string) : string :=
  "{" ++ JS.JSON_quote "error" ++ ":" ++ JS.JSON_quote message ++ "}".

(** Lines 223-228, the outer [catch]. *)
Definition error_response (message : string) : Response :=
  new_Response (error_json message) (Some 500)
               (JS.set corsHeaders "Content-Type" "application/json").

(** Lines 12-14. *)
Definition preflight_response : Response := new_Response "ok" None corsHeaders.

(** The function given to [Deno.serve]. *)
Definition serve (w : World) (req : Request) : M Response :=
  if (method req =? "OPTIONS")%string then ret preflight_response
  else try_catch (proxy w req) (fun message => ret (error_response message)).

End Capture.

(* ------------------------------------------------------------------------- *)
(** ** What a run leaves behind *)

Module Observe.

Import Http Capture.

(** Rows the table accepted: [insert] calls that answered [{ error: null }]. *)
Definition rows_inserted (t : list event) : list LogRow :=
  flat_map (fun e => match e with
                     | Insert _ row (Ok None) => [row]
                     | _ => []
                     end) t.

(** Objects the bucket accepted: [upload] calls that answered without error. *)
Definition blobs_created (t : list event) : list (string * string * LogEntry) :=
  flat_map (fun e => match e with
                     | Upload bucket path doc _ (Ok None) => [(bucket, path, doc)]
                     | _ => []
                     end) t.

(** Every row handed to [insert], whatever the answer. *)
Definition rows_offered (t : list event) : list LogRow :=
  flat_map (fun e => match e with Insert _ row _ => [row] | _ => [] end) t.

(** Every document handed to [upload], whatever the answer. *)
Definition docs_offered (t : list event) : list LogEntry :=
  flat_map (fun e => match e with Upload _ _ doc _ _ => [doc] | _ => [] end) t.

(** Error messages of [insert] calls that answered [{ error }]. *)
Definition insert_errors (t : list event) : list string :=
  flat_map (fun e => match e with
                     | Insert _ _ (Ok (Some m)) => [m]
                     | _ => []
                     end) t.

(** Reads of the upstream response body by the handler. *)
Definition response_reads (t : list event) : list (result string) :=
  flat_map (fun e => match e with ReadResponseText o => [o] | _ => [] end) t.

(** Outbound calls whose [fetch] itself threw. *)
Definition fetch_failures (t : list event) : list string :=
  flat_map (fun e => match e with Fetch _ _ _ _ (Throw m) => [m] | _ => [] end) t.

(** The URLs the handler called. *)
Definition fetch_targets (t : list event) : list string :=
  flat_map (fun e => match e with Fetch u _ _ _ _ => [u] | _ => [] end) t.

(** Upstream responses obtained. *)
Definition fetched (t : list event) : list Response :=
  flat_map (fun e => match e with Fetch _ _ _ _ (Ok r) => [r] | _ => [] end) t.

(** The content-type tests of lines 130-135 on an upstream response. *)
Definition contentTypeRes (r : Response) : string :=
  get_or_empty (JS.fromEntries (entries (res_headers r))) "content-type".

Definition isStreaming (r : Response) : bool :=
  JS.includes (contentTypeRes r) "text/event-stream".

Definition isTextual (r : Response) : bool :=
  (JS.includes (contentTypeRes r) "application/json"
   || JS.includes (contentTypeRes r) "text/")%bool.

(** The headers actually sent upstream (lines 107-109). *)
Definition forwardHeaders (req : Request) : headers :=
  delete (delete (req_headers req) "host") "x-proxy-target".

(** Answers of the [insert] call, when it answered instead of throwing:
    [None] for [{ error: null }], [Some message] for an error. *)
Definition insert_answers (t : list event) : list (option string) :=
  flat_map (fun e => match e with Insert _ _ (Ok o) => [o] | _ => [] end) t.

(** Outcomes of the [upload] call. *)
Definition upload_answers (t : list event) : list (result (option string)) :=
  flat_map (fun e => match e with Upload _ _ _ _ o => [o] | _ => [] end) t.

(** The response synthesized at line 147. *)
Definition bad_gateway (message : string) : Response :=
  new_Response ("Error connecting to upstream: " ++ message) (Some 502) [].

(** The names of the cross-origin allow headers, as a [Headers] object
    stores them. *)
Definition cors_names : list string :=
  map (fun kv => JS.toLowerCase (fst kv)) corsHeaders.

Definition carries_cors (r : Response) : bool :=
  forallb (fun kv => match get (res_headers r) (fst kv) with
                     | Some v => (v =? snd kv)%string
                     | None => false
                     end) corsHeaders.

Definition carries_no_cors (r : Response) : bool :=
  forallb (fun n => negb (has (res_headers r) n)) cors_names.

(** The Alias Table entry of a path segment, when the segment is one of its
    keys. *)
Definition alias_entry (s : string) : option string :=
  JS.own Resolve.ENDPOINT_MAP s.

(** The explicit override a request carries: the [x-proxy-target] header
    when it has a value, or else the [_target] query parameter. *)
Inductive carries_override (req : Request) (t : string) : Prop :=
| override_by_header :
    get (req_headers req) "x-proxy-target" = Some t ->
    t <> "" ->
    carries_override req t
| override_by_query :
    get (req_headers req) "x-proxy-target" = None \/
    get (req_headers req) "x-proxy-target" = Some "" ->
    searchParams_get (searchParams (url req)) "_target" = Some t ->
    t <> "" ->
    carries_override req t.

(** A segment is plain when the table read for it finds nothing: it is no
    alias and no name inherited from [Object.prototype]. *)
Definition plain (s : string) : Prop :=
  alias_entry s = None /\ JS.inherited s = false.

(** A path segment: not empty and free of slashes, so that splitting it at
    slashes gives it back. *)
Definition segment (s : string) : Prop :=
  s <> "" /\ JS.split "/" s = [s].

(** The path made of the given segments. *)
Definition path_of (segs : list string) : string :=
  "/" ++ JS.join "/" segs.

(** Events of the inbound side only: reading the request, console output. *)
Definition inbound_only (e : event) : bool :=
  match e with
  | ReadRequestText _ | Console _ _ => true
  | _ => false
  end.

(** Events of the forwarding block. *)
Definition forwarding_only (e : event) : bool :=
  match e with
  | Fetch _ _ _ _ _ | ReadResponseText _ | Console _ _ => true
  | _ => false
  end.

(** Events of the logging block. *)
Definition logging_only (e : event) : bool :=
  match e with
  | Insert _ _ _ | GetBucket _ _ | CreateBucket _ _ | Upload _ _ _ _ _
  | Console _ _ => true
  | _ => false
  end.

(** The request headers as the plain object of line 21. *)
Definition requestHeaders (req : Request) : JS.object :=
  JS.fromEntries (entries (req_headers req)).

Definition no_override (req : Request) : Prop :=
  (get (req_headers req) "x-proxy-target" = None \/
   get (req_headers req) "x-proxy-target" = Some "") /\
  (searchParams_get (searchParams (url req)) "_target" = None \/
   searchParams_get (searchParams (url req)) "_target" = Some "").

End Observe.

(* ------------------------------------------------------------------------- *)
(** ** Concrete requests and worlds used in the examples *)

Module Examples.

Import Http Capture.

Definition GET (path : string) : Request :=
  mkRequest "GET" (mkURL path "" []) [] NoBody.

Definition POST_json (path payload : string) : Request :=
  mkRequest "POST" (mkURL path "" [])
            [("content-type", "application/json")] (Bytes payload true).

(** A request that names its upstream itself. *)
Definition GET_with_target (path target : string) : Request :=
  mkRequest "GET" (mkURL path "" []) [("x-proxy-target", target)] NoBody.

Definition GET_with_query_target (path target : string) : Request :=
  mkRequest "GET" (mkURL path ("?_target=" ++ target) [("_target", target)])
            [] NoBody.

Definition OPTIONS (path : string) : Request :=
  mkRequest "OPTIONS" (mkURL path "" [])
            [("access-control-request-method", "POST"); ("origin", "https://app.example")]
            NoBody.

Definition upstream_json : Response :=
  mkResponse 200 [("content-type", "application/json")] (Bytes "{}" true).

Definition upstream_sse : Response :=
  mkResponse 200 [("content-type", "text/event-stream")] (Bytes "data: hi" true).

(** An upstream whose JSON body breaks off while it is read. *)
Definition upstream_broken : Response :=
  mkResponse 200 [("content-type", "application/json")] (Bytes "{" false).

(** A healthy deployment: the URL parser resolves a relative path against a
    base ending in a slash by appending it (true of the WHATWG parser for
    the plain paths used here) and rejects a base without a scheme; the
    upstream answers [r]; the table accepts the row. *)
Definition healthy (r : Response) : World :=
  {| env_get := fun _ => Some "configured";
     URL_href := fun input base =>
       if String.prefix "http" base then Ok (base ++ input)
       else Throw "Invalid URL";
     utf8_decode := fun bytes => bytes;
     fetch := fun _ _ _ _ => Ok r;
     Date_now_before := 1000;
     Date_now_after := 1042;
     createClient := fun u k => Ok (mkClient u k);
     insert := fun _ _ _ => Ok None;
     getBucket := fun _ _ => Ok None;
     createBucket := fun _ _ => Ok None;
     upload := fun _ _ _ _ _ => Ok None;
     toISOString := "2024-02-05T10:11:12.345Z";
     randomUUID := "123e4567-e89b-12d3-a456-426614174000" |}.

(** The same with the upstream unreachable. *)
Definition unreachable : World :=
  {| env_get := env_get (healthy upstream_json);
     URL_href := URL_href (healthy upstream_json);
     utf8_decode := fun bytes => bytes;
     fetch := fun _ _ _ _ => Throw "connection refused";
     Date_now_before := 1000;
     Date_now_after := 1042;
     createClient := fun u k => Ok (mkClient u k);
     insert := fun _ _ _ => Ok None;
     getBucket := fun _ _ => Ok None;
     createBucket := fun _ _ => Ok None;
     upload := fun _ _ _ _ _ => Ok None;
     toISOString := "2024-02-05T10:11:12.345Z";
     randomUUID := "123e4567-e89b-12d3-a456-426614174000" |}.

(** The table is missing and the bucket does not exist yet; [stored] says
    whether the upload then goes through. *)
Definition table_missing (r : Response) (stored : bool) : World :=
  {| env_get := fun _ => Some "configured";
     URL_href := URL_href (healthy r);
     utf8_decode := fun bytes => bytes;
     fetch := fun _ _ _ _ => Ok r;
     Date_now_before := 1000;
     Date_now_after := 1042;
     createClient := fun u k => Ok (mkClient u k);
     insert := fun _ _ _ => Ok (Some "relation api_logs does not exist");
     getBucket := fun _ _ => Ok (Some "Bucket not found");
     createBucket := fun _ _ => Ok None;
     upload := fun _ _ _ _ _ =>
       if stored then Ok None else Ok (Some "new row violates row-level security policy");
     toISOString := "2024-02-05T10:11:12.345Z";
     randomUUID := "123e4567-e89b-12d3-a456-426614174000" |}.

(** No logging configuration in the environment, and a client constructor
    that insists on its arguments, as the one of supabase-js does
    ([supabaseUrl is required.]). *)
Definition unconfigured (r : Response) : World :=
  {| env_get := fun _ => None;
     URL_href := URL_href (healthy r);
     utf8_decode := fun bytes => bytes;
     fetch := fun _ _ _ _ => Ok r;
     Date_now_before := 1000;
     Date_now_after := 1042;
     createClient := fun u k =>
       if (u =? "")%string then Throw "supabaseUrl is required."
       else if (k =? "")%string then Throw "supabaseKey is required."
       else Ok (mkClient u k);
     insert := fun _ _ _ => Ok None;
     getBucket := fun _ _ => Ok None;
     createBucket := fun _ _ => Ok None;
     upload := fun _ _ _ _ _ => Ok None;
     toISOString := "2024-02-05T10:11:12.345Z";
     randomUUID := "123e4567-e89b-12d3-a456-426614174000" |}.

End Examples.

(* ------------------------------------------------------------------------- *)
(** ** The external calls of a run *)

Module Calls.

Import Http Capture Observe.

(** The outbound calls: URL, method, headers, body. *)
Definition fetch_calls (t : list event)
  : list (string * string * headers * body) :=
  flat_map (fun e => match e with
                     | Fetch u m h b _ => [(u, m, h, b)]
                     | _ => []
                     end) t.

(** Reads of the inbound request body by the handler. *)
Definition request_reads (t : list event) : list (result string) :=
  flat_map (fun e => match e with ReadRequestText o => [o] | _ => [] end) t.

(** Answers of [getBucket]. *)
Definition bucket_checks (t : list event) : list (result (option string)) :=
  flat_map (fun e => match e with GetBucket _ o => [o] | _ => [] end) t.

(** Calls of [createBucket]: the bucket name and the answer. *)
Definition bucket_creations (t : list event)
  : list (string * result (option string)) :=
  flat_map (fun e => match e with CreateBucket b o => [(b, o)] | _ => [] end) t.

(** Calls of [upload]: bucket, object key, content type. *)
Definition uploads (t : list event) : list (string * string * string) :=
  flat_map (fun e => match e with
                     | Upload b p _ ct _ => [(b, p, ct)]
                     | _ => []
                     end) t.

(** The content-type tests of lines 96-98 on the inbound request. *)
Definition contentType (req : Request) : string :=
  get_or_empty (requestHeaders req) "content-type".

Definition isTextualRequest (req : Request) : bool :=
  (JS.includes (contentType req) "application/json"
   || JS.includes (contentType req) "text/")%bool.

(** The characters of a string. *)
Definition chars (s : string) : list ascii := list_ascii_of_string s.

(** The last character of a string is a slash. *)
Fixpoint ends_with_slash (s : string) : bool :=
  match s with
  | EmptyString => false
  | String c EmptyString => Ascii.eqb c "/"
  | String _ rest => ends_with_slash rest
  end.

(** The bases a request without an override can be sent to: the entries of
    the Alias Table (the default upstream is one of them). *)
Definition upstreams : list string := map snd Resolve.ENDPOINT_MAP.

(** An upstream answering with an image and a 404 JSON error. *)
Definition upstream_image : Response :=
  mkResponse 200 [("content-type", "image/png")] (Bytes "PNG" true).

Definition upstream_not_found : Response :=
  mkResponse 404 [("content-type", "application/json"); ("x-request-id", "r-1")]
             (Bytes "{}" true).

(** A request with a binary body, a host header and a client address. *)
Definition PUT_binary (path : string) : Request :=
  mkRequest "PUT" (mkURL path "?v=2" [("v", "2")])
            [("content-type", "application/octet-stream");
             ("host", "project.functions.example");
             ("x-forwarded-for", "203.0.113.7");
             ("x-proxy-target", "https://files.example/api")]
            (Bytes "raw" true).

End Calls.

(* ------------------------------------------------------------------------- *)
(** ** The installer script (the Docker set-up shell script) *)

Module Installer.

(** What the script asks of the host: the answer of each [command -v] test
    at the moment the script makes it (the one for [docker-compose] comes
    after a possible Docker installation), and the output of [uname]. *)
Record Host : Type := mkHost {
  has_apt_get : bool;
  has_yum : bool;
  has_docker : bool;
  has_docker_compose : bool;
  uname_s : string;
  uname_m : string
}.

(** One step of the script: a command with its words after expansion, a
    two-stage pipeline, or a line printed. *)
Inductive step : Type :=
| Run (argv : list string)
| Pipe (left right : list string)
| Echo (line : string).

(** Lines 5-14: the package manager, or none. *)
Definition PACKAGE_MANAGER (h : Host) : option string :=
  if has_apt_get h then Some "apt-get"
  else if has_yum h then Some "yum"
  else None.

(** Lines 17-27. *)
Definition install_docker (h : Host) : list step :=
  if negb (has_docker h) then
    [ Echo "Docker 未安装，正在安装...";
      Pipe ["wget"; "-qO-"; "get.docker.com"] ["bash"];
      Echo "Docker 已安装，版本为：";
      Run ["docker"; "-v"];
      Run ["sudo"; "systemctl"; "enable"; "docker"];
      Run ["sudo"; "systemctl"; "start"; "docker"] ]
  else
    [ Echo "Docker 已安装，版本为：";
      Run ["docker"; "-v"] ].

(** Lines 30-39. *)
Definition install_compose (h : Host) : list step :=
  if negb (has_docker_compose h) then
    [ Echo "Docker Compose 未安装，正在安装...";
      Run ["sudo"; "curl"; "-L";
           "https://github.com/docker/compose/releases/download/1.29.2/docker-compose-"
             ++ uname_s h ++ "-" ++ uname_m h;
           "-o"; "/usr/local/bin/docker-compose"];
      Run ["sudo"; "chmod"; "+x"; "/usr/local/bin/docker-compose"];
      Echo "Docker Compose 已安装，版本为：";
      Run ["docker-compose"; "--version"] ]
  else
    [ Echo "Docker Compose 已安装，版本为：";
      Run ["docker-compose"; "--version"] ].

(** The whole script: its steps and its exit status. No [set -e]: a failing
    command does not stop it, and the status is that of the last [echo], or
    1 from the [exit 1] of line 13. *)
Definition script (h : Host) : list step * Z :=
  match PACKAGE_MANAGER h with
  | None => ([Echo "未找到支持的包管理器。脚本仅支持 apt-get 和 yum。"], 1)
  | Some pm =>
      ((Run ["sudo"; pm; "update"; "-y"]
          :: install_docker h ++ install_compose h
          ++ [Echo "Docker 和 Docker Compose 安装完成。"])%list, 0)
  end.

(** The steps that change the host: everything but the version prints and
    the [echo] lines. *)
Definition changes_host (st : step) : bool :=
  match st with
  | Echo _ => false
  | Run ["docker"; "-v"] => false
  | Run ["docker-compose"; "--version"] => false
  | _ => true
  end.

(** The steps that download something. *)
Definition downloads (st : step) : bool :=
  match st with
  | Pipe ("wget" :: _) _ => true
  | Run ("sudo" :: "curl" :: _) => true
  | _ => false
  end.

End Installer.

(* ------------------------------------------------------------------------- *)
(** ** Further worlds *)

Module Worlds.

Import Http Capture Examples.

(** The UTF-8 byte-order mark. *)
Definition BOM : string :=
  String (ascii_of_nat 239) (String (ascii_of_nat 187)
    (String (ascii_of_nat 191) EmptyString)).

(** The decoder of [text()] on ASCII text with or without a leading
    byte-order mark: the mark is dropped (Encoding, "UTF-8 decode"), the
    rest comes back as it is. *)
Definition drop_BOM (bytes : string) : string :=
  if String.prefix BOM bytes
  then substring 3 (String.length bytes - 3) bytes
  else bytes.

(** An upstream whose JSON body starts with a byte-order mark. *)
Definition upstream_bom : Response :=
  mkResponse 200 [("content-type", "application/json")]
             (Bytes (BOM ++ "{}") true).

(** A healthy deployment seen with that decoder. *)
Definition decoding (r : Response) : World :=
  {| env_get := env_get (healthy r);
     URL_href := URL_href (healthy r);
     utf8_decode := drop_BOM;
     fetch := fetch (healthy r);
     Date_now_before := 1000;
     Date_now_after := 1042;
     createClient := createClient (healthy r);
     insert := insert (healthy r);
     getBucket := getBucket (healthy r);
     createBucket := createBucket (healthy r);
     upload := upload (healthy r);
     toISOString := toISOString (healthy r);
     randomUUID := randomUUID (healthy r) |}.

(** The upstream is unreachable and the table is missing; the bucket
    exists and takes the document. *)
Definition unreachable_table_missing : World :=
  {| env_get := fun _ => Some "configured";
     URL_href := URL_href unreachable;
     utf8_decode := fun bytes => bytes;
     fetch := fun _ _ _ _ => Throw "connection refused";
     Date_now_before := 1000;
     Date_now_after := 1042;
     createClient := fun u k => Ok (mkClient u k);
     insert := fun _ _ _ => Ok (Some "relation api_logs does not exist");
     getBucket := fun _ _ => Ok None;
     createBucket := fun _ _ => Ok None;
     upload := fun _ _ _ _ _ => Ok None;
     toISOString := "2024-02-05T10:11:12.345Z";
     randomUUID := "123e4567-e89b-12d3-a456-426614174000" |}.

(** A deployment as the platform provides it: the three variables are set,
    the client constructor rejects only an empty URL or key, the table takes
    rows, and the storage refuses every bucket but [capture_logs]. *)
Definition deployed (r : Response) : World :=
  {| env_get := fun name =>
       if (name =? "SUPABASE_URL")%string then Some "https://project.supabase.co"
       else if (name =? "SUPABASE_ANON_KEY")%string then Some "anon-key"
       else if (name =? "SUPABASE_SERVICE_ROLE_KEY")%string then Some "service-key"
       else None;
     URL_href := URL_href (healthy r);
     utf8_decode := fun bytes => bytes;
     fetch := fun _ _ _ _ => Ok r;
     Date_now_before := 1000;
     Date_now_after := 1042;
     createClient := fun u k =>
       if (u =? "")%string then Throw "supabaseUrl is required."
       else if (k =? "")%string then Throw "supabaseKey is required."
       else Ok (mkClient u k);
     insert := fun c _ _ =>
       if (client_key c =? "service-key")%string then Ok None
       else Ok (Some "permission denied for table api_logs");
     getBucket := fun _ b =>
       if (b =? "capture_logs")%string then Ok None
       else Ok (Some "Bucket not found");
     createBucket := fun _ _ => Ok (Some "not allowed");
     upload := fun _ b _ _ _ =>
       if (b =? "capture_logs")%string then Ok None
       else Ok (Some "Bucket not found");
     toISOString := "2024-02-05T10:11:12.345Z";
     randomUUID := "123e4567-e89b-12d3-a456-426614174000" |}.

(** The same deployment with the table missing. *)
Definition deployed_without_table (r : Response) : World :=
  {| env_get := env_get (deployed r);
     URL_href := URL_href (deployed r);
     utf8_decode := fun bytes => bytes;
     fetch := fetch (deployed r);
     Date_now_before := 1000;
     Date_now_after := 1042;
     createClient := createClient (deployed r);
     insert := fun _ _ _ => Ok (Some "relation api_logs does not exist");
     getBucket := getBucket (deployed r);
     createBucket := createBucket (deployed r);
     upload := upload (deployed r);
     toISOString := toISOString (deployed r);
     randomUUID := randomUUID (deployed r) |}.

End Worlds.

(* ------------------------------------------------------------------------- *)
(** ** Facts about the primitives *)

Module JSFacts.

Lemma indexOf_from_absent (x : string) (xs : list string) :
  forall i, ~ In x xs -> JS.indexOf_from i x xs = -1.
Proof.
  induction xs as [|y ys IH]; intros i Hn; simpl.
  - reflexivity.
  - destruct (String.eqb_spec y x) as [->|Hne].
    + exfalso. apply Hn. now left.
    + apply IH. intro Hin. apply Hn. now right.
Qed.

Lemma indexOf_from_first (x : string) (pre post : list string) :
  forall i, ~ In x pre ->
  JS.indexOf_from i x (pre ++ x :: post) = i + Z.of_nat (length pre).
Proof.
  induction pre as [|y ys IH]; intros i Hn; simpl.
  - rewrite String.eqb_refl. lia.
  - destruct (String.eqb_spec y x) as [->|Hne].
    + exfalso. apply Hn. now left.
    + rewrite IH by (intro Hin; apply Hn; now right). lia.
Qed.

Lemma slice_past (pre post : list string) (x : string) :
  JS.slice (Z.of_nat (length pre) + 1) (pre ++ x :: post) = post.
Proof.
  unfold JS.slice.
  destruct (Z.ltb_spec (Z.of_nat (length pre) + 1) 0) as [Hlt|_]; [lia|].
  replace (Z.to_nat (Z.of_nat (length pre) + 1)) with (S (length pre)) by lia.
  induction pre as [|y ys IH]; simpl; [reflexivity | exact IH].
Qed.

Lemma split_cons (c : ascii) (s : string) :
  JS.split "/" (String c s) = [String c s] ->
  Ascii.eqb c "/" = false /\ JS.split "/" s = [s].
Proof.
  simpl. destruct (Ascii.eqb c "/").
  - intro H. inversion H.
  - destruct (JS.split "/" s) as [|w ws] eqn:Hs.
    + destruct s; simpl in Hs; [discriminate|].
      destruct (Ascii.eqb a "/"); [discriminate|].
      destruct (JS.split "/" s); discriminate.
    + intro H. inversion H; subst. now split.
Qed.

(** Splitting a segment followed by a slash and more. *)
Lemma split_segment_slash (s rest : string) :
  JS.split "/" s = [s] ->
  JS.split "/" (s ++ String "/" rest) = s :: JS.split "/" rest.
Proof.
  induction s as [|c s IH]; intro H.
  - reflexivity.
  - destruct (split_cons c s H) as [Hc Hs].
    change (String c s ++ String "/" rest) with (String c (s ++ String "/" rest)).
    cbn [JS.split]. rewrite Hc, (IH Hs). reflexivity.
Qed.

(** Joining segments with slashes and splitting again is the identity. *)
Lemma split_join (seg : string) (segs : list string) :
  Forall (fun s => JS.split "/" s = [s]) (seg :: segs) ->
  JS.split "/" (JS.join "/" (seg :: segs)) = seg :: segs.
Proof.
  revert seg. induction segs as [|s2 segs IH]; intros seg Hall.
  - inversion Hall; subst. assumption.
  - inversion Hall as [|? ? Hseg Hrest]; subst.
    change (JS.join "/" (seg :: s2 :: segs))
      with (seg ++ String "/" (JS.join "/" (s2 :: segs))).
    rewrite (split_segment_slash _ _ Hseg), (IH s2 Hrest). reflexivity.
Qed.

End JSFacts.

(* ------------------------------------------------------------------------- *)
(** ** Target resolution *)

Module ResolveFacts.

Import Http Resolve Observe.

Lemma alias_entry_nonempty (s v : string) :
  alias_entry s = Some v -> v <> "".
Proof.
  unfold alias_entry, ENDPOINT_MAP; simpl.
  repeat match goal with
         | |- (if ?b then _ else _) = _ -> _ => destruct b
         end; intro H; inversion H; discriminate.
Qed.

Lemma get_alias (s v : string) :
  alias_entry s = Some v -> JS.get ENDPOINT_MAP s = JS.Str v.
Proof. unfold alias_entry, JS.get. now intros ->. Qed.

Lemma truthy_alias (s v : string) :
  alias_entry s = Some v -> JS.truthy (JS.get ENDPOINT_MAP s) = true.
Proof.
  intro H. rewrite (get_alias _ _ H). simpl.
  destruct (String.eqb_spec v ""); [|reflexivity].
  now apply alias_entry_nonempty in H.
Qed.

Lemma truthy_plain (s : string) :
  alias_entry s = None -> JS.inherited s = false ->
  JS.truthy (JS.get ENDPOINT_MAP s) = false.
Proof. unfold alias_entry, JS.get. now intros -> ->. Qed.

Lemma alias_scan_first (pre post : list string) (a v : string) :
  forall i, Forall plain pre -> alias_entry a = Some v ->
  alias_scan i (pre ++ a :: post) = (i + Z.of_nat (length pre), a).
Proof.
  induction pre as [|s pre IH]; intros i Hpre Ha; simpl.
  - rewrite (truthy_alias _ _ Ha). f_equal. lia.
  - inversion Hpre as [|? ? [Hs1 Hs2] Hrest]; subst.
    rewrite (truthy_plain _ Hs1 Hs2), IH by assumption.
    f_equal. lia.
Qed.

Lemma alias_scan_none (segs : list string) :
  forall i, Forall plain segs -> alias_scan i segs = (-1, "").
Proof.
  induction segs as [|s segs IH]; intros i Hall; simpl.
  - reflexivity.
  - inversion Hall as [|? ? [Hs1 Hs2] Hrest]; subst.
    now rewrite (truthy_plain _ Hs1 Hs2), IH.
Qed.

Lemma override_absent (req : Request) :
  no_override req -> JS.truthy (override req) = false.
Proof.
  unfold no_override, override, JS.or.
  intros [[-> | ->] [-> | ->]]; reflexivity.
Qed.

Lemma override_present (req : Request) (t : string) :
  carries_override req t -> override req = JS.Str t.
Proof.
  assert (Ht : t <> "" -> JS.or (JS.Str t) (JS.of_option None) = JS.Str t
                         /\ JS.or JS.Null (JS.Str t) = JS.Str t
                         /\ JS.or (JS.Str "") (JS.Str t) = JS.Str t).
  { intro Hne. unfold JS.or, JS.truthy.
    destruct (String.eqb_spec t ""); [contradiction|]. now repeat split. }
  unfold override.
  intros [Hh Hne | [Hh | Hh] Hq Hne]; rewrite Hh; try rewrite Hq;
    destruct (Ht Hne) as (H1 & H2 & H3); simpl JS.of_option;
    try assumption.
  unfold JS.or, JS.truthy. now destruct (String.eqb_spec t "").
Qed.

(** Rule 2 of the resolution: the first alias segment selects the base, and
    the forwarded path is what follows it. The segments before it must be
    plain: an inherited name would stop the scan first. *)
Lemma resolve_alias (req : Request) (pre post : list string) (a v : string) :
  no_override req ->
  pathSegments (url req) = (pre ++ a :: post)%list ->
  Forall plain pre ->
  alias_entry a = Some v ->
  resolve req = (JS.Str v, "/" ++ JS.join "/" post).
Proof.
  intros Hno Hsegs Hpre Ha. unfold resolve.
  rewrite (override_absent _ Hno), Hsegs; simpl negb; cbv iota.
  rewrite (alias_scan_first pre post a v 0 Hpre Ha).
  destruct (Z.eqb_spec (0 + Z.of_nat (length pre)) (-1)) as [Habs|_]; [lia|].
  simpl negb; cbv iota.
  rewrite (get_alias _ _ Ha). unfold after.
  replace (0 + Z.of_nat (length pre) + 1) with (Z.of_nat (length pre) + 1) by lia.
  now rewrite JSFacts.slice_past.
Qed.

(** Rule 3 with the mount point present. *)
Lemma resolve_default_capture (req : Request) (pre post : list string) :
  no_override req ->
  pathSegments (url req) = (pre ++ "capture" :: post)%list ->
  Forall plain (pathSegments (url req)) ->
  ~ In "capture" pre ->
  resolve req = (JS.Str "https://api.anthropic.com", "/" ++ JS.join "/" post).
Proof.
  intros Hno Hsegs Hplain Hpre. unfold resolve.
  rewrite (override_absent _ Hno); simpl negb; cbv iota.
  rewrite (alias_scan_none _ 0 Hplain). simpl negb; cbv iota.
  rewrite Hsegs. unfold JS.indexOf.
  rewrite (JSFacts.indexOf_from_first _ pre post 0 Hpre).
  destruct (Z.eqb_spec (0 + Z.of_nat (length pre)) (-1)) as [Habs|_]; [lia|].
  simpl negb; cbv iota. unfold after.
  replace (0 + Z.of_nat (length pre) + 1) with (Z.of_nat (length pre) + 1) by lia.
  now rewrite JSFacts.slice_past.
Qed.

(** Rule 3 without the mount point, under [/functions/v1/<name>/...]. *)
Lemma resolve_default_prefix (req : Request) (name : string) (rest : list string) :
  no_override req ->
  pathSegments (url req) = "functions" :: "v1" :: name :: rest ->
  Forall plain (pathSegments (url req)) ->
  ~ In "capture" (pathSegments (url req)) ->
  resolve req = (JS.Str "https://api.anthropic.com", "/" ++ JS.join "/" rest).
Proof.
  intros Hno Hsegs Hplain Hnc. unfold resolve.
  rewrite (override_absent _ Hno); simpl negb; cbv iota.
  rewrite (alias_scan_none _ 0 Hplain). simpl negb; cbv iota.
  unfold JS.indexOf. rewrite (JSFacts.indexOf_from_absent _ _ 0 Hnc).
  rewrite Hsegs. simpl negb; cbv iota.
  replace (3 <=? Z.of_nat (length ("functions" :: "v1" :: name :: rest)))
    with true by (symmetry; apply Z.leb_le; simpl length; lia).
  reflexivity.
Qed.

(** Rule 3, neither: the inbound path goes through unchanged. *)
Lemma resolve_default_unchanged (req : Request) :
  no_override req ->
  Forall plain (pathSegments (url req)) ->
  ~ In "capture" (pathSegments (url req)) ->
  (forall name rest, pathSegments (url req) <> "functions" :: "v1" :: name :: rest) ->
  resolve req = (JS.Str "https://api.anthropic.com", pathname (url req)).
Proof.
  intros Hno Hplain Hnc Hshape. unfold resolve.
  rewrite (override_absent _ Hno); simpl negb; cbv iota.
  rewrite (alias_scan_none _ 0 Hplain). simpl negb; cbv iota.
  unfold JS.indexOf. rewrite (JSFacts.indexOf_from_absent _ _ 0 Hnc).
  simpl negb; cbv iota.
  destruct (pathSegments (url req)) as [|s0 [|s1 [|s2 rest]]]; try reflexivity.
  simpl JS.at_index; cbv iota.
  destruct (String.eqb_spec s0 "functions") as [->|]; [|now rewrite andb_false_r].
  destruct (String.eqb_spec s1 "v1") as [->|]; [|now rewrite andb_false_r].
  exfalso. now apply (Hshape s2 rest).
Qed.

(** The segments of a path built from segments are those segments. *)
Lemma pathSegments_path_of (segs : list string) (q : string)
    (ps : list (string * string)) :
  Forall segment segs ->
  pathSegments (mkURL (path_of segs) q ps) = segs.
Proof.
  intros Hall. unfold pathSegments, path_of. cbn [pathname].
  change ("/" ++ JS.join "/" segs) with (String "/" (JS.join "/" segs)).
  cbn [JS.split]. rewrite Ascii.eqb_refl.
  assert (Hfilter : JS.filter_Boolean segs = segs).
  { clear q ps. induction Hall as [|s l [Hne _] _ IH]; [reflexivity|].
    unfold JS.filter_Boolean in *. cbn [filter].
    destruct (String.eqb_spec s ""); [contradiction|]. cbn [negb].
    now rewrite IH. }
  destruct segs as [|seg segs]; [reflexivity|].
  rewrite JSFacts.split_join.
  - unfold JS.filter_Boolean in *. cbn [filter]. exact Hfilter.
  - eapply Forall_impl; [|exact Hall]. now intros s [_ Hs].
Qed.

(** Rule 2 on the path itself: [/pre.../alias/post...] resolves to the
    alias's base and [/post...]. *)
Lemma resolve_alias_path (req : Request) (pre post : list string) (a v : string) :
  no_override req ->
  pathname (url req) = path_of (pre ++ a :: post) ->
  Forall segment (pre ++ a :: post) ->
  Forall plain pre ->
  alias_entry a = Some v ->
  resolve req = (JS.Str v, path_of post).
Proof.
  intros Hno Hpath Hsegs Hpre Ha.
  apply (resolve_alias req pre post a v Hno); try assumption.
  destruct req as [m [p q ps] h b]. cbn [url pathname] in *. subst p.
  now apply pathSegments_path_of.
Qed.

(** Rule 3 on the path itself, mount point present. *)
Lemma resolve_default_path (req : Request) (pre post : list string) :
  no_override req ->
  pathname (url req) = path_of (pre ++ "capture" :: post) ->
  Forall segment (pre ++ "capture" :: post) ->
  Forall plain (pre ++ "capture" :: post) ->
  ~ In "capture" pre ->
  resolve req = (JS.Str "https://api.anthropic.com", path_of post).
Proof.
  intros Hno Hpath Hsegs Hplain Hpre.
  assert (Hps : pathSegments (url req) = (pre ++ "capture" :: post)%list).
  { destruct req as [m [p q ps] h b]. cbn [url pathname] in *. subst p.
    now apply pathSegments_path_of. }
  apply (resolve_default_capture req pre post Hno Hps); [|assumption].
  now rewrite Hps.
Qed.

(** The URL the alias example is forwarded to, on any platform whose URL
    parser resolves this relative path against this base as WHATWG says. *)
Lemma targetUrl_alias_example (w : Capture.World) :
  Capture.URL_href w "v1/chat/completions" "https://api.openai.com/"
    = Capture.Ok "https://api.openai.com/v1/chat/completions" ->
  Capture.targetUrl w
    (Examples.GET "/functions/v1/capture/openai/v1/chat/completions")
    = Capture.Ok "https://api.openai.com/v1/chat/completions".
Proof.
  intros H. unfold Capture.targetUrl.
  change (resolve (Examples.GET "/functions/v1/capture/openai/v1/chat/completions"))
    with (JS.Str "https://api.openai.com", "/v1/chat/completions").
  cbn in *. rewrite H. reflexivity.
Qed.

(** The same for the default-upstream example. *)
Lemma targetUrl_default_example (w : Capture.World) :
  Capture.URL_href w "foo/bar" "https://api.anthropic.com/"
    = Capture.Ok "https://api.anthropic.com/foo/bar" ->
  Capture.targetUrl w (Examples.GET "/functions/v1/capture/foo/bar")
    = Capture.Ok "https://api.anthropic.com/foo/bar".
Proof.
  intros H. unfold Capture.targetUrl.
  change (resolve (Examples.GET "/functions/v1/capture/foo/bar"))
    with (JS.Str "https://api.anthropic.com", "/foo/bar").
  cbn in *. rewrite H. reflexivity.
Qed.

End ResolveFacts.

(* ------------------------------------------------------------------------- *)
(** ** The stages of the handler *)

Module StageFacts.

Import Http Capture Observe.

Ltac run := unfold bind, try_catch, call, lift, emit, ret.

(** Case analysis on the answers of the external calls, innermost first. *)
Ltac split_calls :=
  repeat (cbv beta iota zeta;
          match goal with
          | |- context [match ?x with _ => _ end] =>
              lazymatch x with
              | context [match _ with _ => _ end] => fail
              | _ => destruct x eqn:?
              end
          end).

Lemma read_request_body_returns (w : World) (req : Request) (rh : JS.object) :
  exists tr rb,
    read_request_body w req rh = (tr, Ok rb) /\ forallb inbound_only tr = true.
Proof.
  unfold read_request_body. run.
  destruct (_ || _)%bool.
  - destruct (text w (req_body req)); eexists _, _; split; reflexivity.
  - eexists _, _; split; reflexivity.
Qed.

(** An event-stream response: no read, the sentinel is what gets logged. *)
Lemma forward_streaming (w : World) (t m : string) (h : headers) (b : body)
    (r : Response) :
  fetch w t m h b = Ok r ->
  isStreaming r = true ->
  forward w t m h b =
    ([Fetch t m h b (Ok r)],
     Ok (mkForwarded r (status r) (JS.fromEntries (entries (res_headers r)))
                     (Some STREAMING))).
Proof.
  unfold isStreaming, contentTypeRes. intros Hf Hs.
  unfold forward. run. rewrite Hf, Hs. reflexivity.
Qed.

(** A JSON or text response: one read of the clone, whose text (or the
    placeholder when the read throws) is what gets logged. *)
Lemma forward_textual (w : World) (t m : string) (h : headers) (b : body)
    (r : Response) :
  fetch w t m h b = Ok r ->
  isStreaming r = false ->
  isTextual r = true ->
  forward w t m h b =
    ([Fetch t m h b (Ok r); ReadResponseText (text w (res_body r))],
     Ok (mkForwarded r (status r) (JS.fromEntries (entries (res_headers r)))
                     (Some match text w (res_body r) with
                           | Ok s => s
                           | Throw _ => "[Error reading response body]"
                           end))).
Proof.
  unfold isStreaming, isTextual, contentTypeRes. intros Hf Hs Ht.
  unfold forward. run. rewrite Hf, Hs, Ht.
  destruct (text w (res_body r)); reflexivity.
Qed.

(** Any other content type: no read, nothing captured. *)
Lemma forward_other (w : World) (t m : string) (h : headers) (b : body)
    (r : Response) :
  fetch w t m h b = Ok r ->
  isStreaming r = false ->
  isTextual r = false ->
  forward w t m h b =
    ([Fetch t m h b (Ok r)],
     Ok (mkForwarded r (status r) (JS.fromEntries (entries (res_headers r)))
                     None)).
Proof.
  unfold isStreaming, isTextual, contentTypeRes. intros Hf Hs Ht.
  unfold forward. run. rewrite Hf, Hs, Ht. reflexivity.
Qed.

(** The call itself failed: the 502 is synthesized, and logged as such. *)
Lemma forward_failed (w : World) (t m : string) (h : headers) (b : body)
    (e : string) :
  fetch w t m h b = Throw e ->
  forward w t m h b =
    ([Fetch t m h b (Throw e); Console "error" ("Fetch error: " ++ e)],
     Ok (mkForwarded (bad_gateway e) 502 []
                     (Some ("Error connecting to upstream: " ++ e)))).
Proof.
  intros Hf. unfold forward. run. rewrite Hf. reflexivity.
Qed.

(** The forwarding block always completes, and hands on the upstream's own
    response unless the call failed. *)
Lemma forward_returns (w : World) (t m : string) (h : headers) (b : body) :
  exists tr f,
    forward w t m h b = (tr, Ok f) /\
    forallb forwarding_only tr = true /\
    match fetch w t m h b with
    | Ok r => response f = r /\ responseStatus f = status r /\
              fetched tr = [r] /\ fetch_failures tr = []
    | Throw e => response f = bad_gateway e /\ responseStatus f = 502 /\
                 responseBody f = Some ("Error connecting to upstream: " ++ e) /\
                 fetched tr = [] /\ fetch_failures tr = [e]
    end.
Proof.
  destruct (fetch w t m h b) as [r|e] eqn:Hf.
  - destruct (isStreaming r) eqn:Hs.
    + rewrite (forward_streaming _ _ _ _ _ _ Hf Hs).
      eexists _, _; repeat split; reflexivity.
    + destruct (isTextual r) eqn:Ht.
      * rewrite (forward_textual _ _ _ _ _ _ Hf Hs Ht).
        eexists _, _; repeat split; reflexivity.
      * rewrite (forward_other _ _ _ _ _ _ Hf Hs Ht).
        eexists _, _; repeat split; reflexivity.
  - rewrite (forward_failed _ _ _ _ _ _ Hf).
    eexists _, _; repeat split; reflexivity.
Qed.

Lemma observers_inbound (t : list event) :
  forallb inbound_only t = true ->
  rows_inserted t = [] /\ blobs_created t = [] /\ insert_errors t = [] /\
  rows_offered t = [] /\ docs_offered t = [] /\ response_reads t = [] /\
  fetched t = [] /\ fetch_failures t = [].
Proof.
  induction t as [|e t IH]; simpl; [now repeat split|].
  destruct e; simpl; try discriminate; exact IH.
Qed.

Lemma observers_forwarding (t : list event) :
  forallb forwarding_only t = true ->
  rows_inserted t = [] /\ blobs_created t = [] /\ insert_errors t = [] /\
  rows_offered t = [] /\ docs_offered t = [].
Proof.
  induction t as [|e t IH]; simpl; [now repeat split|].
  destruct e; simpl; try discriminate; try exact IH;
    destruct outcome; exact IH.
Qed.

Lemma observers_logging (t : list event) :
  forallb logging_only t = true ->
  response_reads t = [] /\ fetched t = [] /\ fetch_failures t = [].
Proof.
  induction t as [|e t IH]; simpl; [now repeat split|].
  destruct e; simpl; try discriminate; exact IH.
Qed.

(** ** The logging block *)

Section Logging.

Variable w : World.
Variables (m t : string) (rh : JS.object) (rb : option string).
Variables (f : Forwarded) (d : Z).

Let tl : list event := fst (log_exchange w m t rh rb f d).

(** Whatever the logging block hands to a sink is the record of this
    exchange: the status, headers and body the forwarding block left. *)
Lemma log_exchange_records :
  forallb logging_only tl = true /\
  Forall (fun row =>
            row = mkLogRow m t rh rb (responseStatus f) (responseHeaders f)
                           (responseBody f) d (get_or_null rh "x-forwarded-for"))
         (rows_offered tl) /\
  Forall (fun doc =>
            doc = mkLogEntry m t (responseStatus f) d
                             (JS.get rh "x-forwarded-for") rh rb
                             (responseHeaders f) (responseBody f))
         (docs_offered tl).
Proof.
  unfold tl, log_exchange, storage_fallback. run.
  split_calls; simpl; repeat split; repeat constructor.
Qed.

(** One record, one sink at most. *)
Lemma log_exchange_sinks :
  (length (rows_inserted tl) + length (blobs_created tl) <= 1)%nat /\
  (rows_inserted tl <> [] -> docs_offered tl = []) /\
  (insert_errors tl <> [] ->
     rows_inserted tl = [] /\ (length (docs_offered tl) <= 1)%nat) /\
  Forall (fun blob => fst (fst blob) = "capture_logs") (blobs_created tl).
Proof.
  unfold tl, log_exchange, storage_fallback. run.
  split_calls; simpl; split_calls; simpl;
    repeat split; intros; try congruence; try lia; repeat constructor.
Qed.

End Logging.

(** ** The handler as a whole *)

Lemma serve_preflight (w : World) (req : Request) :
  method req = "OPTIONS" -> serve w req = ([], Ok preflight_response).
Proof. intros H. unfold serve. rewrite H. reflexivity. Qed.

(** No target URL: nothing is forwarded, the outer [catch] answers. *)
Lemma serve_unresolved (w : World) (req : Request) (e : string) :
  method req <> "OPTIONS" ->
  targetUrl w req = Throw e ->
  serve w req = ([], Ok (error_response e)).
Proof.
  intros Hm Ht. unfold serve, proxy.
  apply String.eqb_neq in Hm. rewrite Hm, Ht. reflexivity.
Qed.

(** With a target URL the three blocks run in order; only the logging block
    can still throw, and then the outer [catch] answers. *)
Lemma serve_run (w : World) (req : Request) (target : string) :
  method req <> "OPTIONS" ->
  targetUrl w req = Ok target ->
  exists t1 rb tf f,
    forallb inbound_only t1 = true /\
    forallb forwarding_only tf = true /\
    forward w target (method req) (forwardHeaders req) (req_body req)
      = (tf, Ok f) /\
    serve w req =
      let lg := log_exchange w (method req) target (requestHeaders req) rb f
                             (Date_now_after w - Date_now_before w) in
      ((t1 ++ tf ++ fst lg)%list,
       Ok match snd lg with
          | Ok _ => response f
          | Throw e => error_response e
          end).
Proof.
  intros Hm Ht.
  destruct (read_request_body_returns w req (requestHeaders req))
    as (tr & rb & Hr & Hin).
  destruct (forward_returns w target (method req) (forwardHeaders req)
                            (req_body req)) as (tf & f & Hf & Hfw & _).
  exists (tr ++ [Console "log" ("Proxying " ++ method req ++ " to " ++ target)])%list,
         rb, tf, f.
  split; [|split; [assumption|split; [assumption|]]].
  - rewrite forallb_app, Hin. reflexivity.
  - unfold serve, proxy. apply String.eqb_neq in Hm. rewrite Hm, Ht.
    unfold requestHeaders, forwardHeaders in *.
    run. cbv beta iota zeta. rewrite Hr. cbv beta iota. rewrite Hf.
    cbv beta iota.
    destruct (log_exchange _ _ _ _ _ _ _) as [tl [[]|e]];
      simpl; rewrite <- !app_assoc, ?app_nil_r; reflexivity.
Qed.

Lemma trace_observers (t1 tf tl : list event) :
  forallb inbound_only t1 = true ->
  forallb forwarding_only tf = true ->
  forallb logging_only tl = true ->
  let t := (t1 ++ tf ++ tl)%list in
  rows_inserted t = rows_inserted tl /\
  blobs_created t = blobs_created tl /\
  insert_errors t = insert_errors tl /\
  rows_offered t = rows_offered tl /\
  docs_offered t = docs_offered tl /\
  response_reads t = response_reads tf /\
  fetched t = fetched tf /\
  fetch_failures t = fetch_failures tf.
Proof.
  intros H1 Hf Hl.
  destruct (observers_inbound _ H1) as (A1 & A2 & A3 & A4 & A5 & A6 & A7 & A8).
  destruct (observers_forwarding _ Hf) as (B1 & B2 & B3 & B4 & B5).
  destruct (observers_logging _ Hl) as (C1 & C2 & C3).
  unfold rows_inserted, blobs_created, insert_errors, rows_offered,
    docs_offered, response_reads, fetched, fetch_failures in *.
  cbv zeta. rewrite !flat_map_app.
  rewrite A1, A2, A3, A4, A5, A6, A7, A8, B1, B2, B3, B4, B5, C1, C2, C3.
  rewrite !app_nil_r. now repeat split.
Qed.

(** What a run with a target URL shows to the observers: the sinks see the
    logging block only, the upstream the forwarding block only. *)
Lemma serve_observed (w : World) (req : Request) (target : string) :
  method req <> "OPTIONS" ->
  targetUrl w req = Ok target ->
  exists rb tf f,
    forward w target (method req) (forwardHeaders req) (req_body req)
      = (tf, Ok f) /\
    let lg := log_exchange w (method req) target (requestHeaders req) rb f
                           (Date_now_after w - Date_now_before w) in
    let t := fst (serve w req) in
    snd (serve w req) = Ok match snd lg with
                           | Ok _ => response f
                           | Throw e => error_response e
                           end /\
    rows_inserted t = rows_inserted (fst lg) /\
    blobs_created t = blobs_created (fst lg) /\
    insert_errors t = insert_errors (fst lg) /\
    rows_offered t = rows_offered (fst lg) /\
    docs_offered t = docs_offered (fst lg) /\
    response_reads t = response_reads tf /\
    fetched t = fetched tf /\
    fetch_failures t = fetch_failures tf.
Proof.
  intros Hm Ht.
  destruct (serve_run w req target Hm Ht) as (t1 & rb & tf & f & H1 & Hfw & Hf & Hs).
  exists rb, tf, f. split; [assumption|]. cbv zeta in *.
  rewrite Hs. cbn [fst snd]. split; [reflexivity|].
  apply trace_observers; try assumption.
  apply log_exchange_records.
Qed.

End StageFacts.

(* ------------------------------------------------------------------------- *)
(** ** Properties of the handler *)

Import Http Capture Observe Examples.

(** *** Cross-origin preflight *)

(** C3, as stated, fails: the preflight response is not empty-bodied. For
    the request [OPTIONS /functions/v1/capture] the handler answers 200 with
    the two bytes [ok], and the platform adds a text content type next to
    the three allow headers. *)
Lemma C3_preflight_body_is_not_empty :
  method (OPTIONS "/functions/v1/capture") = "OPTIONS" /\
  ~ (exists r,
       snd (serve (healthy upstream_json) (OPTIONS "/functions/v1/capture")) = Ok r /\
       status r = 200 /\
       body_bytes (res_body r) = "" /\
       res_headers r = new_Headers corsHeaders).
Proof.
  split; [reflexivity|].
  intros (r & Hr & _ & Hbody & _).
  rewrite StageFacts.serve_preflight in Hr by reflexivity.
  inversion Hr; subst r. discriminate Hbody.
Qed.

(** C3 (amended): for every request whose method is OPTIONS the handler
    returns status 200, the body [ok], and the three fixed cross-origin allow
    headers followed by the text content type of that body, whatever the
    path, the other headers and the world; nothing else runs: the run has no
    event at all, so no forwarding and no logging. *)
Theorem C3_preflight (w : World) (req : Request) :
  method req = "OPTIONS" ->
  serve w req =
    ([],
     Ok {| status := 200;
           res_headers :=
             [ ("access-control-allow-origin", "*");
               ("access-control-allow-headers",
                "authorization, x-client-info, apikey, content-type, x-proxy-target, x-anthropic-version, anthropic-version");
               ("access-control-allow-methods",
                "POST, GET, OPTIONS, PUT, DELETE, PATCH");
               ("content-type", "text/plain;charset=UTF-8") ];
           res_body := Bytes "ok" true |}).
Proof.
  intros H. rewrite (StageFacts.serve_preflight w req H). reflexivity.
Qed.

Lemma C3_preflight_witness :
  serve unreachable (OPTIONS "/functions/v1/capture/openai/v1/chat/completions") =
    ([],
     Ok {| status := 200;
           res_headers :=
             [ ("access-control-allow-origin", "*");
               ("access-control-allow-headers",
                "authorization, x-client-info, apikey, content-type, x-proxy-target, x-anthropic-version, anthropic-version");
               ("access-control-allow-methods",
                "POST, GET, OPTIONS, PUT, DELETE, PATCH");
               ("content-type", "text/plain;charset=UTF-8") ];
           res_body := Bytes "ok" true |}).
Proof.
  apply (C3_preflight unreachable
           (OPTIONS "/functions/v1/capture/openai/v1/chat/completions")).
  reflexivity.
Defined.

(** *** Cross-origin headers on the other responses *)

(** C10: the handler always returns a response, of one of four kinds. The
    preflight response and the 500 response of the outer [catch] carry the
    three cross-origin allow headers. A proxied response is the upstream's
    response object itself, so its headers are the upstream's and nothing is
    added; the synthesized 502 has the text content type of its body as its
    only header, and none of the allow headers. *)
Theorem C10_cors_headers_only_on_preflight_and_500 (w : World) (req : Request) :
  exists resp,
    snd (serve w req) = Ok resp /\
    ((method req = "OPTIONS" /\
      resp = preflight_response /\ carries_cors resp = true)
     \/
     (method req <> "OPTIONS" /\
      exists msg, resp = error_response msg /\
                  status resp = 500 /\ carries_cors resp = true)
     \/
     (method req <> "OPTIONS" /\
      fetched (fst (serve w req)) = [resp])
     \/
     (method req <> "OPTIONS" /\
      exists e, fetch_failures (fst (serve w req)) = [e] /\
                resp = bad_gateway e /\
                status resp = 502 /\
                res_headers resp = [("content-type", "text/plain;charset=UTF-8")] /\
                carries_no_cors resp = true)).
Proof.
  destruct (String.eqb_spec (method req) "OPTIONS") as [Hm|Hm].
  - rewrite (StageFacts.serve_preflight w req Hm). eexists. split; [reflexivity|].
    left. now repeat split.
  - destruct (targetUrl w req) as [target|msg] eqn:Ht.
    + destruct (StageFacts.serve_observed w req target Hm Ht)
        as (rb & tf & f & Hf & Hs & _ & _ & _ & _ & _ & _ & Hfe & Hff).
      cbv zeta in *.
      destruct (StageFacts.forward_returns w target (method req)
                  (forwardHeaders req) (req_body req)) as (tf' & f' & Hf' & _ & Hsp).
      rewrite Hf in Hf'. inversion Hf'; subst tf' f'. clear Hf'.
      rewrite Hs, Hfe, Hff. eexists. split; [reflexivity|].
      destruct (snd (log_exchange _ _ _ _ _ _ _)) as [[]|msg].
      * destruct (fetch w target _ _ _) as [r|e].
        -- destruct Hsp as (Hr & _ & Hfd & _). right; right; left.
           split; [assumption|]. now rewrite Hfd, Hr.
        -- destruct Hsp as (Hr & _ & _ & _ & Hfl). right; right; right.
           split; [assumption|]. exists e. rewrite Hfl, Hr. now repeat split.
      * right; left. split; [assumption|]. exists msg. now repeat split.
    + rewrite (StageFacts.serve_unresolved w req msg Hm Ht). cbn [fst snd].
      eexists. split; [reflexivity|].
      right; left. split; [assumption|]. exists msg. now repeat split.
Qed.

(** *** Target resolution *)

(** C4, as stated, fails on the forwarded path: the segments after the mount
    point are joined anew, so empty segments are lost. With the override
    header set, [/functions/v1/capture/v1/models/] is forwarded as
    [/v1/models], which is not the portion [/v1/models/] that follows
    [capture] in the inbound path. *)
Lemma C4_trailing_slash_after_the_mount_point_is_lost :
  let req := GET_with_target "/functions/v1/capture/v1/models/"
                             "https://gateway.example/llm" in
  carries_override req "https://gateway.example/llm" /\
  pathname (url req) = "/functions/v1/capture" ++ "/v1/models/" /\
  Resolve.resolve req = (JS.Str "https://gateway.example/llm", "/v1/models") /\
  snd (Resolve.resolve req) <> "/v1/models/".
Proof.
  cbv zeta. split; [apply override_by_header; [reflexivity|discriminate]|].
  split; [reflexivity|]. split; [reflexivity|]. discriminate.
Qed.

(** C4 (amended): for every request carrying an explicit override target [t]
    (a non-empty [x-proxy-target] header, or else a non-empty [_target] query
    parameter), the resolved base is [t] itself whatever the path holds, and
    it is [t] (one trailing slash removed) followed by a slash that the
    target URL is built on. When the path has a [capture] segment, the
    forwarded path is a slash followed by the non-empty segments after the
    first [capture], joined by single slashes (empty segments, that is
    doubled or trailing slashes, are dropped); otherwise it is the inbound
    path unchanged. *)
Theorem C4_override_is_used_verbatim (req : Request) (t : string) :
  carries_override req t ->
  fst (Resolve.resolve req) = JS.Str t /\
  (forall pre post,
     Resolve.pathSegments (url req) = (pre ++ "capture" :: post)%list ->
     ~ In "capture" pre ->
     snd (Resolve.resolve req) = path_of post) /\
  (~ In "capture" (Resolve.pathSegments (url req)) ->
     snd (Resolve.resolve req) = pathname (url req)) /\
  (forall w,
     targetUrl w req =
       match URL_href w (JS.strip_leading_slash (snd (Resolve.resolve req)))
                      (JS.strip_trailing_slash t ++ "/") with
       | Ok href => Ok (href ++ search (url req))
       | Throw e => Throw e
       end).
Proof.
  intros Hov.
  pose proof (ResolveFacts.override_present req t Hov) as Ho.
  assert (Htruthy : JS.truthy (Resolve.override req) = true).
  { rewrite Ho. unfold JS.truthy.
    destruct (String.eqb_spec t "") as [->|]; [|reflexivity].
    destruct Hov; contradiction. }
  assert (Hfst : fst (Resolve.resolve req) = JS.Str t).
  { unfold Resolve.resolve. rewrite Htruthy. cbn [negb].
    destruct (negb _); cbn [fst]; exact Ho. }
  split; [exact Hfst|]. split; [|split].
  - intros pre post Hsegs Hpre. unfold Resolve.resolve.
    rewrite Htruthy, Hsegs. cbn [negb]. unfold JS.indexOf.
    rewrite (JSFacts.indexOf_from_first _ pre post 0 Hpre).
    destruct (Z.eqb_spec (0 + Z.of_nat (length pre)) (-1)) as [Habs|_]; [lia|].
    cbn [negb snd]. unfold Resolve.after, path_of.
    replace (0 + Z.of_nat (length pre) + 1) with (Z.of_nat (length pre) + 1) by lia.
    now rewrite JSFacts.slice_past.
  - intros Hnc. unfold Resolve.resolve. rewrite Htruthy. cbn [negb].
    unfold JS.indexOf. rewrite (JSFacts.indexOf_from_absent _ _ 0 Hnc).
    reflexivity.
  - intros w. unfold targetUrl.
    destruct (Resolve.resolve req) as [base path]. cbn [fst snd] in *.
    rewrite Hfst. reflexivity.
Qed.

Lemma C4_override_is_used_verbatim_witness :
  fst (Resolve.resolve
         (GET_with_query_target "/functions/v1//capture/openai//v1/models/"
                                "https://gateway.example/llm/"))
    = JS.Str "https://gateway.example/llm/" /\
  snd (Resolve.resolve
         (GET_with_query_target "/functions/v1//capture/openai//v1/models/"
                                "https://gateway.example/llm/"))
    = "/openai/v1/models" /\
  targetUrl (healthy upstream_json)
            (GET_with_query_target "/functions/v1//capture/openai//v1/models/"
                                   "https://gateway.example/llm/")
    = Ok "https://gateway.example/llm/openai/v1/models?_target=https://gateway.example/llm/".
Proof.
  destruct (C4_override_is_used_verbatim
              (GET_with_query_target "/functions/v1//capture/openai//v1/models/"
                                     "https://gateway.example/llm/")
              "https://gateway.example/llm/")
    as (Hbase & Hafter & _ & Hurl).
  - apply override_by_query; [left; reflexivity | reflexivity | discriminate].
  - split; [exact Hbase|]. split.
    + apply (Hafter ["functions"; "v1"] ["openai"; "v1"; "models"]).
      * reflexivity.
      * intros [H | [H | []]]; discriminate H.
    + rewrite Hurl. reflexivity.
Defined.

(** C1, on the code: a segment that names a property inherited from
    [Object.prototype] stops the alias scan before the alias. For
    [/functions/v1/capture/constructor/openai/v1/chat/completions], with no
    override, the only Alias Table key in the path is [openai]; the scan
    stops at [constructor], the base becomes a function, line 88 throws and
    the caller gets the 500 of the outer [catch], in every world. *)
Theorem C1_inherited_name_shadows_the_alias :
  let req := GET "/functions/v1/capture/constructor/openai/v1/chat/completions" in
  no_override req /\
  Resolve.pathSegments (url req)
    = ["functions"; "v1"; "capture"; "constructor"; "openai"; "v1"; "chat";
       "completions"] /\
  map alias_entry (Resolve.pathSegments (url req))
    = [None; None; None; None; Some "https://api.openai.com"; None; None; None] /\
  Resolve.resolve req = (JS.Fun "constructor", "/openai/v1/chat/completions") /\
  forall w,
    serve w req = ([], Ok (error_response "targetBase.replace is not a function")).
Proof.
  cbv zeta. split; [split; left; reflexivity|].
  split; [reflexivity|]. split; [reflexivity|]. split; [reflexivity|].
  intros w. apply StageFacts.serve_unresolved; [discriminate | reflexivity].
Qed.

(** C5, on the code: the same inherited name defeats the default. For
    [/functions/v1/capture/constructor], with no override and no Alias Table
    key in the path, the base is not the default upstream: the scan stops
    at [constructor] and the caller gets the 500 of the outer [catch], in
    every world. *)
Theorem C5_inherited_name_defeats_the_default :
  let req := GET "/functions/v1/capture/constructor" in
  no_override req /\
  Resolve.pathSegments (url req) = ["functions"; "v1"; "capture"; "constructor"] /\
  map alias_entry (Resolve.pathSegments (url req)) = [None; None; None; None] /\
  Resolve.resolve req = (JS.Fun "constructor", "/") /\
  forall w,
    serve w req = ([], Ok (error_response "targetBase.replace is not a function")).
Proof.
  cbv zeta. split; [split; left; reflexivity|].
  split; [reflexivity|]. split; [reflexivity|]. split; [reflexivity|].
  intros w. apply StageFacts.serve_unresolved; [discriminate | reflexivity].
Qed.

(** *** The two examples of the specification, run *)

(** [/functions/v1/capture/openai/v1/chat/completions] is forwarded to
    [https://api.openai.com/v1/chat/completions], and
    [/functions/v1/capture/foo/bar] to [https://api.anthropic.com/foo/bar]. *)
Example spec_examples_run :
  fetch_targets
    (fst (serve (healthy upstream_json)
                (GET "/functions/v1/capture/openai/v1/chat/completions")))
    = ["https://api.openai.com/v1/chat/completions"] /\
  fetch_targets
    (fst (serve (healthy upstream_json) (GET "/functions/v1/capture/foo/bar")))
    = ["https://api.anthropic.com/foo/bar"].
Proof. split; reflexivity. Qed.

(* ------------------------------------------------------------------------- *)
(** ** More about the primitives *)

Module SegmentFacts.

Import Http Resolve Observe Calls.

Lemma split_slash_free (s : string) :
  Forall (fun p => ~ In "/"%char (chars p)) (JS.split "/" s).
Proof.
  induction s as [|c r IH]; simpl.
  - constructor; [intros []|constructor].
  - destruct (Ascii.eqb_spec c "/") as [->|Hc].
    + constructor; [intros []|exact IH].
    + destruct (JS.split "/" r) as [|p ps].
      * constructor; [|constructor]. intros [H|[]]. now apply Hc.
      * inversion IH as [|? ? Hp Hps]; subst. constructor; [|exact Hps].
        intros [H|H]; [now apply Hc | now apply Hp].
Qed.

Lemma slash_free_split (s : string) :
  ~ In "/"%char (chars s) -> JS.split "/" s = [s].
Proof.
  induction s as [|c r IH]; intro Hs; [reflexivity|].
  simpl. destruct (Ascii.eqb_spec c "/") as [->|Hc].
  - exfalso. apply Hs. now left.
  - rewrite IH; [reflexivity|]. intro H. apply Hs. now right.
Qed.

Lemma Forall_skipn {A} (P : A -> Prop) (n : nat) (l : list A) :
  Forall P l -> Forall P (skipn n l).
Proof.
  revert l. induction n as [|n IH]; intros l H; [exact H|].
  destruct l as [|x l]; [constructor|]. inversion H; subst. now apply IH.
Qed.

Lemma slice_is_skipn (k : Z) (xs : list string) :
  exists n, JS.slice k xs = skipn n xs.
Proof. unfold JS.slice. destruct (k <? 0); eexists; reflexivity. Qed.

Lemma strip_trailing_slash_added (s : string) :
  JS.strip_trailing_slash (s ++ "/") = s.
Proof.
  induction s as [|c r IH]; [reflexivity|].
  change (String c r ++ "/") with (String c (r ++ "/")).
  destruct r as [|c' r']; [reflexivity|].
  change (JS.strip_trailing_slash (String c (String c' r' ++ "/")))
    with (String c (JS.strip_trailing_slash (String c' r' ++ "/"))).
  now rewrite IH.
Qed.

Lemma strip_trailing_slash_none (s : string) :
  ends_with_slash s = false -> JS.strip_trailing_slash s = s.
Proof.
  induction s as [|c r IH]; [reflexivity|].
  destruct r as [|c' r'].
  - simpl. now intros ->.
  - intro H. change (ends_with_slash (String c' r') = false) in H.
    change (JS.strip_trailing_slash (String c (String c' r')))
      with (String c (JS.strip_trailing_slash (String c' r'))).
    now rewrite (IH H).
Qed.

Lemma dash_length (s : string) :
  String.length (JS.dash_colons_dots s) = String.length s.
Proof. induction s as [|c r IH]; simpl; congruence. Qed.

Lemma dash_chars (s : string) :
  chars (JS.dash_colons_dots s)
    = map (fun c => if (Ascii.eqb c ":" || Ascii.eqb c ".")%bool
                    then "-"%char else c) (chars s).
Proof.
  induction s as [|c r IH]; [reflexivity|].
  unfold chars in *. cbn [JS.dash_colons_dots list_ascii_of_string map].
  now rewrite IH.
Qed.

Lemma dash_clean (s : string) :
  ~ In ":"%char (chars (JS.dash_colons_dots s)) /\
  ~ In "."%char (chars (JS.dash_colons_dots s)).
Proof.
  induction s as [|c r [IH1 IH2]]; simpl; [split; intros []|].
  destruct (Ascii.eqb_spec c ":") as [->|H1]; simpl.
  - split; (intros [H|H]; [discriminate H|auto]).
  - destruct (Ascii.eqb_spec c ".") as [->|H2]; simpl.
    + split; (intros [H|H]; [discriminate H|auto]).
    + split; (intros [H|H]; [congruence|auto]).
Qed.

Lemma substring_length_le (n m : nat) (s : string) :
  (String.length (substring n m s) <= m)%nat.
Proof.
  revert n m. induction s as [|c r IH]; intros n m.
  - destruct n, m; simpl; lia.
  - destruct n as [|n].
    + destruct m as [|m]; simpl; [lia|]. specialize (IH 0%nat m). lia.
    + simpl. apply IH.
Qed.

End SegmentFacts.

(* ------------------------------------------------------------------------- *)
(** ** More about target resolution *)

Module ResolveMore.

Import Http Resolve Observe Calls.

Lemma pathSegments_clean (u : URL) :
  Forall (fun s => s <> "" /\ ~ In "/"%char (chars s)) (pathSegments u).
Proof.
  unfold pathSegments, JS.filter_Boolean. apply Forall_forall.
  intros s Hin. apply filter_In in Hin. destruct Hin as [Hin Hne]. split.
  - intros ->. discriminate Hne.
  - pose proof (SegmentFacts.split_slash_free (pathname u)) as Hall.
    rewrite Forall_forall in Hall. now apply Hall.
Qed.

Lemma clean_segments (segs : list string) :
  Forall (fun s => s <> "" /\ ~ In "/"%char (chars s)) segs ->
  Forall segment segs.
Proof.
  intros H. eapply Forall_impl; [|exact H].
  intros s [Hne Hs]. split; [exact Hne|]. now apply SegmentFacts.slash_free_split.
Qed.

Lemma alias_scan_result (segs : list string) :
  forall i k s, alias_scan i segs = (k, s) ->
  k = -1 \/ JS.truthy (JS.get ENDPOINT_MAP s) = true.
Proof.
  induction segs as [|x xs IH]; intros i k s; simpl.
  - intros H. inversion H. now left.
  - destruct (JS.truthy (JS.get ENDPOINT_MAP x)) eqn:Hx.
    + intros H. inversion H; subst. now right.
    + apply IH.
Qed.

Lemma own_In (o : JS.object) (key v : string) :
  JS.own o key = Some v -> In v (map snd o).
Proof.
  induction o as [|[k x] o IH]; simpl; [discriminate|].
  destruct (k =? key)%string.
  - intros H. inversion H. now left.
  - intros H. right. now apply IH.
Qed.

(** Without an override the base is a table entry, or the function an
    inherited name stands for. *)
Lemma resolve_base_cases (req : Request) :
  no_override req ->
  (exists v, In v upstreams /\ fst (resolve req) = JS.Str v) \/
  (exists n, fst (resolve req) = JS.Fun n).
Proof.
  intros Hno. unfold resolve.
  rewrite (ResolveFacts.override_absent _ Hno). cbn [negb].
  destruct (alias_scan 0 (pathSegments (url req))) as [k s] eqn:Hscan.
  destruct (Z.eqb_spec k (-1)) as [Hk|Hk]; cbn [negb].
  - left. exists "https://api.anthropic.com".
    split; [simpl; tauto|].
    destruct (negb _); [reflexivity|]. destruct (_ && _)%bool; reflexivity.
  - destruct (alias_scan_result _ _ _ _ Hscan) as [Habs|Ht]; [contradiction|].
    cbn [fst]. unfold JS.get in *.
    destruct (JS.own ENDPOINT_MAP s) as [v|] eqn:Hown.
    + left. exists v. split; [|reflexivity]. exact (own_In _ _ _ Hown).
    + destruct (JS.inherited s); [right; now exists s | discriminate Ht].
Qed.

Lemma upstreams_have_no_trailing_slash (v : string) :
  In v upstreams -> JS.strip_trailing_slash v = v.
Proof.
  unfold upstreams. simpl.
  intros [<-|[<-|[<-|[<-|[<-|[<-|[<-|[]]]]]]]]; reflexivity.
Qed.

(** The forwarded path is the inbound path or what follows some segment. *)
Lemma resolve_path_cases (req : Request) :
  snd (resolve req) = pathname (url req) \/
  exists k, snd (resolve req) = after k (pathSegments (url req)).
Proof.
  unfold resolve.
  destruct (negb (JS.truthy (override req))).
  - destruct (alias_scan 0 (pathSegments (url req))) as [k s].
    destruct (negb (k =? -1)); [right; eexists; reflexivity|].
    destruct (negb _); [right; eexists; reflexivity|].
    destruct (_ && _)%bool; [right; eexists; reflexivity | now left].
  - destruct (negb _); [right; eexists; reflexivity | now left].
Qed.

(** With an override, the pair the resolution returns. *)
Lemma resolve_with_override (req : Request) (t : string) :
  carries_override req t ->
  resolve req =
    (JS.Str t,
     if negb (JS.indexOf "capture" (pathSegments (url req)) =? -1)
     then after (JS.indexOf "capture" (pathSegments (url req)) + 1)
                (pathSegments (url req))
     else pathname (url req)).
Proof.
  intros Hov.
  pose proof (ResolveFacts.override_present req t Hov) as Ho.
  assert (Htruthy : JS.truthy (override req) = true).
  { rewrite Ho. unfold JS.truthy.
    destruct (String.eqb_spec t "") as [->|]; [|reflexivity].
    destruct Hov; contradiction. }
  unfold resolve. rewrite Htruthy, Ho. cbn [negb].
  destruct (negb _); reflexivity.
Qed.

End ResolveMore.

(** *** Further properties: resolution *)

Import Calls.

(** X1: the segments of any inbound path are never empty and never hold a
    slash, whatever the path looks like (doubled, leading or trailing
    slashes, the empty path). *)
Theorem X1_segments_are_nonempty_and_slash_free (u : URL) :
  Forall (fun s => s <> "" /\ ~ In "/"%char (chars s)) (Resolve.pathSegments u).
Proof. apply ResolveMore.pathSegments_clean. Qed.

(** X2: joining non-empty, slash-free segments into a path and taking the
    segments of that path gives the segments back, in order. *)
Theorem X2_path_of_segments_round_trip
    (segs : list string) (q : string) (ps : list (string * string)) :
  Forall (fun s => s <> "" /\ ~ In "/"%char (chars s)) segs ->
  Resolve.pathSegments (mkURL (path_of segs) q ps) = segs.
Proof.
  intros H. apply ResolveFacts.pathSegments_path_of.
  now apply ResolveMore.clean_segments.
Qed.

Lemma X2_path_of_segments_round_trip_witness :
  Resolve.pathSegments
    (mkURL (path_of ["functions"; "v1"; "capture"; "v1"; "messages"]) "?beta=1"
           [("beta", "1")])
    = ["functions"; "v1"; "capture"; "v1"; "messages"].
Proof.
  apply (X2_path_of_segments_round_trip
           ["functions"; "v1"; "capture"; "v1"; "messages"] "?beta=1" [("beta", "1")]).
  repeat constructor; try discriminate;
    simpl; intros H; repeat destruct H as [H|H]; discriminate H || exact H.
Defined.

(** X3: without an override, whenever a target URL is built, the base
    handed to the URL constructor is one of the Alias Table's base URLs
    followed by a slash, the relative input is the forwarded path less one
    leading slash, and the target is what the constructor returns with the
    inbound query string appended. Nothing is said of what the constructor
    makes of the relative input, which the code does not inspect. *)
Theorem X3_without_override_the_base_is_a_table_entry
    (w : World) (req : Request) (u : string) :
  no_override req ->
  targetUrl w req = Ok u ->
  exists v href,
    In v upstreams /\
    URL_href w (JS.strip_leading_slash (snd (Resolve.resolve req))) (v ++ "/")
      = Ok href /\
    u = href ++ search (url req).
Proof.
  intros Hno Hu. unfold targetUrl in Hu.
  destruct (ResolveMore.resolve_base_cases req Hno) as [(v & Hin & Hv)|(n & Hn)];
    destruct (Resolve.resolve req) as [base path]; cbn [fst snd] in *; subst base.
  - cbn [normalizedTargetBase] in Hu.
    rewrite (ResolveMore.upstreams_have_no_trailing_slash v Hin) in Hu.
    destruct (URL_href w _ _) as [href|e] eqn:Hh; [|discriminate Hu].
    exists v, href. inversion Hu. now repeat split.
  - discriminate Hu.
Qed.

Lemma X3_without_override_the_base_is_a_table_entry_witness :
  exists v href,
    In v upstreams /\
    URL_href (healthy upstream_json)
      (JS.strip_leading_slash
         (snd (Resolve.resolve (GET "/functions/v1/capture/groq/v1/models"))))
      (v ++ "/") = Ok href /\
    "https://api.groq.com/openai/v1/models"
      = href ++ search (url (GET "/functions/v1/capture/groq/v1/models")).
Proof.
  apply (X3_without_override_the_base_is_a_table_entry
           (healthy upstream_json) (GET "/functions/v1/capture/groq/v1/models")).
  - split; left; reflexivity.
  - reflexivity.
Defined.

(** X4: the forwarded path never holds a segment of its own making: its
    segments are always a suffix of the inbound path's segments, for every
    request, with or without an override. *)
Theorem X4_forwarded_segments_are_a_suffix (req : Request) :
  exists k,
    Resolve.pathSegments (mkURL (snd (Resolve.resolve req)) "" [])
      = skipn k (Resolve.pathSegments (url req)).
Proof.
  destruct (ResolveMore.resolve_path_cases req) as [Hp|(k & Hk)].
  - exists 0%nat. rewrite Hp. reflexivity.
  - rewrite Hk. unfold Resolve.after.
    destruct (SegmentFacts.slice_is_skipn k (Resolve.pathSegments (url req)))
      as [n Hn].
    exists n. rewrite Hn.
    apply (ResolveFacts.pathSegments_path_of
             (skipn n (Resolve.pathSegments (url req))) "" []).
    apply ResolveMore.clean_segments, SegmentFacts.Forall_skipn,
      ResolveMore.pathSegments_clean.
Qed.

(** X5: a trailing slash on the override target makes no difference: two
    requests for the same URL whose override targets are [t] and [t/] are
    sent to the same target URL. *)
Theorem X5_trailing_slash_of_the_override_is_immaterial
    (w : World) (req req' : Request) (t : string) :
  url req = url req' ->
  carries_override req t ->
  carries_override req' (t ++ "/") ->
  ends_with_slash t = false ->
  targetUrl w req = targetUrl w req'.
Proof.
  intros Hurl Hov Hov' Hend. unfold targetUrl.
  rewrite (ResolveMore.resolve_with_override req t Hov),
          (ResolveMore.resolve_with_override req' (t ++ "/") Hov'), Hurl.
  cbn [normalizedTargetBase].
  now rewrite SegmentFacts.strip_trailing_slash_added,
              (SegmentFacts.strip_trailing_slash_none t Hend).
Qed.

Lemma X5_trailing_slash_of_the_override_is_immaterial_witness :
  targetUrl (healthy upstream_json)
            (GET_with_target "/functions/v1/capture/v1/models"
                             "https://gateway.example/llm")
  = targetUrl (healthy upstream_json)
              (GET_with_target "/functions/v1/capture/v1/models"
                               "https://gateway.example/llm/").
Proof.
  apply (X5_trailing_slash_of_the_override_is_immaterial
           (healthy upstream_json) _ _ "https://gateway.example/llm").
  - reflexivity.
  - apply override_by_header; [reflexivity | discriminate].
  - apply override_by_header; [reflexivity | discriminate].
  - reflexivity.
Defined.

(* ------------------------------------------------------------------------- *)
(** ** More about the run of the handler *)

Module RunFacts.

Import Http Capture Observe Calls.
Import StageFacts.

(** An observer that ignores a class of events sees nothing in a trace made
    of that class. *)
Lemma flat_map_ignored {B} (g : event -> list B) (p : event -> bool)
    (t : list event) :
  (forall e, p e = true -> g e = []) ->
  forallb p t = true ->
  flat_map g t = [].
Proof.
  intros Hg. induction t as [|e t IH]; simpl; [reflexivity|].
  intros H. apply andb_prop in H. destruct H as [He Ht].
  now rewrite (Hg e He), (IH Ht).
Qed.

(** Lines 93-104, unfolded. *)
Lemma read_request_body_trace (w : World) (req : Request) :
  read_request_body w req (requestHeaders req) =
    if isTextualRequest req then
      match text w (req_body req) with
      | Ok s => ([ReadRequestText (Ok s)], Ok (Some s))
      | Throw e =>
          ([ReadRequestText (Throw e);
            Console "error" ("Error reading request body " ++ e)], Ok None)
      end
    else ([], Ok None).
Proof.
  unfold read_request_body, isTextualRequest, contentType. run.
  destruct (_ || _)%bool; [|reflexivity].
  destruct (text w (req_body req)); reflexivity.
Qed.

(** The value [requestBody] holds after lines 93-104. *)
Lemma read_request_body_value (w : World) (req : Request) :
  snd (read_request_body w req (requestHeaders req)) =
    Ok (if isTextualRequest req then
          match text w (req_body req) with
          | Ok s => Some s
          | Throw _ => None
          end
        else None).
Proof.
  rewrite read_request_body_trace.
  destruct (isTextualRequest req); [|reflexivity].
  destruct (text w (req_body req)); reflexivity.
Qed.

(** The trace of a run with a target URL, block by block. *)
Lemma serve_trace (w : World) (req : Request) (target : string) :
  method req <> "OPTIONS" ->
  targetUrl w req = Ok target ->
  exists tf f,
    forward w target (method req) (forwardHeaders req) (req_body req)
      = (tf, Ok f) /\
    forallb forwarding_only tf = true /\
    let rb := if isTextualRequest req then
                match text w (req_body req) with
                | Ok s => Some s
                | Throw _ => None
                end
              else None in
    let tl := fst (log_exchange w (method req) target (requestHeaders req) rb f
                                (Date_now_after w - Date_now_before w)) in
    forallb logging_only tl = true /\
    fst (serve w req) =
      (fst (read_request_body w req (requestHeaders req))
       ++ Console "log" ("Proxying " ++ method req ++ " to " ++ target)
       :: tf ++ tl)%list.
Proof.
  intros Hm Ht.
  destruct (forward_returns w target (method req) (forwardHeaders req)
                            (req_body req)) as (tf & f & Hf & Hfw & _).
  exists tf, f. split; [exact Hf|]. split; [exact Hfw|]. cbv zeta.
  split; [apply log_exchange_records|].
  pose proof (read_request_body_value w req) as Hv.
  destruct (read_request_body w req (requestHeaders req)) as [tr r] eqn:Hr.
  cbn [fst snd] in *. subst r.
  unfold serve, proxy. apply String.eqb_neq in Hm. rewrite Hm, Ht.
  unfold requestHeaders, forwardHeaders in *.
  run. cbv beta iota zeta. rewrite Hr. cbv beta iota. rewrite Hf.
  cbv beta iota.
  destruct (log_exchange _ _ _ _ _ _ _) as [tl [[]|e]];
    simpl; rewrite <- ?app_assoc, ?app_nil_r; reflexivity.
Qed.

Lemma read_request_body_inbound (w : World) (req : Request) :
  forallb inbound_only (fst (read_request_body w req (requestHeaders req))) = true.
Proof.
  rewrite read_request_body_trace.
  destruct (isTextualRequest req); [|reflexivity].
  destruct (text w (req_body req)); reflexivity.
Qed.

(** The forwarding block makes exactly one call, with the arguments given. *)
Lemma forward_calls (w : World) (t m : string) (h : headers) (b : body) :
  fetch_calls (fst (forward w t m h b)) = [(t, m, h, b)] /\
  (length (response_reads (fst (forward w t m h b))) <= 1)%nat.
Proof.
  destruct (fetch w t m h b) as [r|e] eqn:Hf.
  - destruct (isStreaming r) eqn:Hs.
    + rewrite (forward_streaming _ _ _ _ _ _ Hf Hs). split; simpl; [reflexivity|lia].
    + destruct (isTextual r) eqn:Ht.
      * rewrite (forward_textual _ _ _ _ _ _ Hf Hs Ht).
        split; simpl; [reflexivity|lia].
      * rewrite (forward_other _ _ _ _ _ _ Hf Hs Ht).
        split; simpl; [reflexivity|lia].
  - rewrite (forward_failed _ _ _ _ _ _ Hf). split; simpl; [reflexivity|lia].
Qed.

(** A sink-side observer sees, in a run, what it sees in the logging block. *)
Lemma serve_sinks (w : World) (req : Request) (target : string) :
  method req <> "OPTIONS" ->
  targetUrl w req = Ok target ->
  exists rb f,
    forall B (g : event -> list B),
      (forall e, (inbound_only e || forwarding_only e)%bool = true -> g e = []) ->
      flat_map g (fst (serve w req)) =
      flat_map g (fst (log_exchange w (method req) target (requestHeaders req)
                                    rb f (Date_now_after w - Date_now_before w))).
Proof.
  intros Hm Ht.
  destruct (serve_trace w req target Hm Ht) as (tf & f & _ & Hfw & _ & Hs).
  cbv zeta in Hs. eexists _, f. intros B g Hg.
  rewrite Hs, flat_map_app. cbn [flat_map]. rewrite flat_map_app.
  rewrite (flat_map_ignored g inbound_only), (Hg (Console _ _) eq_refl),
          (flat_map_ignored g forwarding_only); try assumption.
  - reflexivity.
  - intros e He. apply Hg. rewrite He. apply orb_true_r.
  - intros e He. apply Hg. now rewrite He.
  - apply read_request_body_inbound.
Qed.

(** Runs that stop before the forwarding block leave no event. *)
Lemma serve_silent (w : World) (req : Request) :
  method req = "OPTIONS" \/ (exists e, targetUrl w req = Throw e) ->
  fst (serve w req) = [].
Proof.
  destruct (String.eqb_spec (method req) "OPTIONS") as [Hm|Hm].
  - intros _. now rewrite (serve_preflight w req Hm).
  - intros [H|[e He]]; [contradiction|].
    now rewrite (serve_unresolved w req e Hm He).
Qed.

End RunFacts.

Module SinkFacts.

Import Http Capture Observe Calls.
Import StageFacts.

Ltac tidy :=
  repeat match goal with
         | H : False |- _ => destruct H
         | H : _ \/ _ |- _ => destruct H as [H|H]
         | H : In _ [] |- _ => destruct H
         | H : In _ (_ :: _) |- _ => destruct H as [H|H]
         | H : _ :: _ = _ :: _ |- _ => inversion H; clear H; subst
         | H : (_, _) = (_, _) |- _ => inversion H; clear H; subst
         | H : _ :: _ = [] |- _ => discriminate H
         | H : [] = _ :: _ |- _ => discriminate H
         | H : Ok _ = Throw _ |- _ => discriminate H
         | H : Throw _ = Ok _ |- _ => discriminate H
         | H : Ok _ = Ok _ |- _ => inversion H; clear H; subst
         | H : Some _ = None |- _ => discriminate H
         | H : None = Some _ |- _ => discriminate H
         | H : Some _ = Some _ |- _ => inversion H; clear H; subst
         end; subst.

Section Fallback.

Variable w : World.
Variables (m t : string) (rh : JS.object) (rb : option string).
Variables (f : Forwarded) (d : Z).

Let tl : list event := fst (log_exchange w m t rh rb f d).

(** No call of the logging block is made twice. *)
Lemma log_exchange_once :
  (length (rows_offered tl) <= 1)%nat /\
  (length (bucket_checks tl) <= 1)%nat /\
  (length (bucket_creations tl) <= 1)%nat /\
  (length (uploads tl) <= 1)%nat.
Proof.
  unfold tl, log_exchange, storage_fallback. run.
  split_calls; simpl; repeat split; lia.
Qed.

(** The storage side is touched only after a refused row. *)
Lemma log_exchange_fallback_only_after_error :
  insert_errors tl = [] ->
  bucket_checks tl = [] /\ bucket_creations tl = [] /\ uploads tl = [].
Proof.
  unfold tl, log_exchange, storage_fallback. run.
  split_calls; simpl; intros H; try discriminate H; now repeat split.
Qed.

(** When the bucket is created, and what follows the bucket check. *)
Lemma log_exchange_bucket :
  (forall c, In c (bucket_creations tl) ->
     fst c = "capture_logs" /\
     exists msg, bucket_checks tl = [Ok (Some msg)] /\
                 JS.includes msg "not found" = true) /\
  (forall msg, bucket_checks tl = [Ok (Some msg)] ->
     JS.includes msg "not found" = false ->
     bucket_creations tl = [] /\ length (uploads tl) = 1%nat) /\
  (bucket_checks tl = [Ok None] ->
     bucket_creations tl = [] /\ length (uploads tl) = 1%nat) /\
  (forall b o, In (b, Ok o) (bucket_creations tl) ->
     length (uploads tl) = 1%nat) /\
  (forall e, bucket_checks tl = [Throw e] ->
     bucket_creations tl = [] /\ uploads tl = []) /\
  (forall b e, In (b, Throw e) (bucket_creations tl) -> uploads tl = []).
Proof.
  unfold tl, log_exchange, storage_fallback. run.
  split_calls; simpl; repeat split; intros; tidy;
    try discriminate; try congruence; try reflexivity;
    try (eexists; split; [reflexivity|assumption]).
Qed.

(** Where and under which key the document is uploaded. *)
Lemma log_exchange_upload :
  forall b p ct, In (b, p, ct) (uploads tl) ->
    b = "capture_logs" /\ ct = "application/json" /\
    p = JS.dash_colons_dots (toISOString w) ++ "_"
        ++ substring 0 8 (randomUUID w) ++ ".json".
Proof.
  unfold tl, log_exchange, storage_fallback. run.
  split_calls; simpl; intros; tidy; now repeat split.
Qed.

End Fallback.

End SinkFacts.

Module RecordFacts.

Import Http Capture Observe Calls.
Import StageFacts RunFacts.

Ltac ignored p t :=
  rewrite (flat_map_ignored _ p t);
  [ | intros [] ?; simpl in *; solve [reflexivity | congruence]
    | assumption ].

(** What a run with a target URL calls, reads and hands to the sinks. *)
Lemma serve_records (w : World) (req : Request) (target : string) :
  method req <> "OPTIONS" ->
  targetUrl w req = Ok target ->
  exists tf f,
    forward w target (method req) (forwardHeaders req) (req_body req)
      = (tf, Ok f) /\
    let t := fst (serve w req) in
    let rb := if isTextualRequest req then
                match text w (req_body req) with
                | Ok s => Some s
                | Throw _ => None
                end
              else None in
    fetch_calls t = [(target, method req, forwardHeaders req, req_body req)] /\
    request_reads t
      = request_reads (fst (read_request_body w req (requestHeaders req))) /\
    response_reads t = response_reads tf /\
    Forall (fun row =>
              row = mkLogRow (method req) target (requestHeaders req) rb
                             (responseStatus f) (responseHeaders f)
                             (responseBody f)
                             (Date_now_after w - Date_now_before w)
                             (get_or_null (requestHeaders req) "x-forwarded-for"))
           (rows_offered t) /\
    Forall (fun doc =>
              doc = mkLogEntry (method req) target (responseStatus f)
                               (Date_now_after w - Date_now_before w)
                               (JS.get (requestHeaders req) "x-forwarded-for")
                               (requestHeaders req) rb
                               (responseHeaders f) (responseBody f))
           (docs_offered t).
Proof.
  intros Hm Ht.
  destruct (serve_trace w req target Hm Ht) as (tf & f & Hf & Hfw & Hl & Hs).
  cbv zeta in Hl, Hs. exists tf, f. split; [exact Hf|]. cbv zeta.
  set (tr := fst (read_request_body w req (requestHeaders req))) in *.
  assert (Htr : forallb inbound_only tr = true)
    by apply read_request_body_inbound.
  destruct (log_exchange_records w (method req) target (requestHeaders req)
              (if isTextualRequest req then
                 match text w (req_body req) with
                 | Ok s => Some s
                 | Throw _ => None
                 end
               else None) f (Date_now_after w - Date_now_before w))
    as (_ & Hrows & Hdocs).
  cbv zeta in Hrows, Hdocs.
  pose proof (forward_calls w target (method req) (forwardHeaders req)
                            (req_body req)) as [Hcalls _].
  rewrite Hf in Hcalls. cbn [fst] in Hcalls.
  set (tl := fst (log_exchange _ _ _ _ _ _ _)) in *.
  rewrite Hs. repeat split.
  - unfold fetch_calls in *. rewrite flat_map_app. cbn [flat_map].
    rewrite flat_map_app, Hcalls.
    ignored inbound_only tr. ignored logging_only tl. reflexivity.
  - unfold request_reads. rewrite flat_map_app. cbn [flat_map].
    rewrite flat_map_app.
    ignored forwarding_only tf. ignored logging_only tl.
    now rewrite !app_nil_r.
  - unfold response_reads. rewrite flat_map_app. cbn [flat_map].
    rewrite flat_map_app.
    ignored inbound_only tr. ignored logging_only tl.
    now rewrite app_nil_r.
  - unfold rows_offered in *. rewrite flat_map_app. cbn [flat_map].
    rewrite flat_map_app.
    ignored inbound_only tr. ignored forwarding_only tf. exact Hrows.
  - unfold docs_offered in *. rewrite flat_map_app. cbn [flat_map].
    rewrite flat_map_app.
    ignored inbound_only tr. ignored forwarding_only tf. exact Hdocs.
Qed.

(** What the forwarding block leaves of an upstream response. *)
Lemma forward_mirrors (w : World) (t m : string) (h : headers) (b : body)
    (r : Response) :
  fetch w t m h b = Ok r ->
  exists tf captured,
    forward w t m h b =
      (tf, Ok (mkForwarded r (status r)
                 (JS.fromEntries (entries (res_headers r))) captured)).
Proof.
  intros Hf. destruct (isStreaming r) eqn:Hs.
  - rewrite (forward_streaming _ _ _ _ _ _ Hf Hs). now eexists _, _.
  - destruct (isTextual r) eqn:Ht.
    + rewrite (forward_textual _ _ _ _ _ _ Hf Hs Ht). now eexists _, _.
    + rewrite (forward_other _ _ _ _ _ _ Hf Hs Ht). now eexists _, _.
Qed.

(** Headers: what [delete] removes and what it keeps. *)
Lemma delete_In (h : headers) (name k v : string) :
  In (k, v) (delete h name) <-> In (k, v) h /\ k <> JS.toLowerCase name.
Proof.
  unfold delete. rewrite filter_In. cbn [fst].
  destruct (String.eqb_spec k (JS.toLowerCase name)); cbn [negb];
    intuition congruence.
Qed.

Lemma get_delete (h : headers) (name : string) :
  get (delete h name) name = None.
Proof.
  induction h as [|[k v] h IH]; [reflexivity|].
  unfold delete in *. cbn [filter fst].
  destruct (String.eqb_spec k (JS.toLowerCase name)) as [He|Hne]; cbn [negb].
  - exact IH.
  - cbn [get]. destruct (String.eqb_spec k (JS.toLowerCase name));
      [contradiction | exact IH].
Qed.

Lemma get_delete_other (h : headers) (name other : string) :
  JS.toLowerCase other <> JS.toLowerCase name ->
  get (delete h name) other = get h other.
Proof.
  intros Hne. induction h as [|[k v] h IH]; [reflexivity|].
  unfold delete in *. cbn [filter fst get].
  destruct (String.eqb_spec k (JS.toLowerCase name)) as [He|Hk]; cbn [negb].
  - destruct (String.eqb_spec k (JS.toLowerCase other)); [congruence | exact IH].
  - cbn [get]. now rewrite IH.
Qed.

(** A header list with distinct names is its own plain object. *)
Lemma fromEntries_distinct (es acc : list (string * string)) :
  NoDup (map fst (acc ++ es)) ->
  fold_left (fun o kv => JS.set o (fst kv) (snd kv)) es acc = (acc ++ es)%list.
Proof.
  revert acc. induction es as [|[k v] es IH]; intros acc Hnd.
  - now rewrite app_nil_r.
  - cbn [fold_left fst snd].
    assert (Hset : JS.set acc k v = (acc ++ [(k, v)])%list).
    { assert (Hk : ~ In k (map fst acc)).
      { rewrite map_app in Hnd. cbn [map fst] in Hnd.
        apply NoDup_remove_2 in Hnd. intro Hin. apply Hnd.
        apply in_or_app. now left. }
      clear -Hk. induction acc as [|[k' v'] acc IHa]; [reflexivity|].
      cbn [JS.set]. destruct (String.eqb_spec k' k) as [->|Hne].
      - exfalso. apply Hk. now left.
      - rewrite IHa; [reflexivity|]. intro Hin. apply Hk. now right. }
    rewrite Hset, (IH (acc ++ [(k, v)])%list); rewrite <- app_assoc; [reflexivity|].
    exact Hnd.
Qed.

Lemma own_is_get (h : headers) (name : string) :
  JS.toLowerCase name = name ->
  JS.own h name = get h name.
Proof.
  intros Hl. induction h as [|[k v] h IH]; [reflexivity|].
  cbn [JS.own get]. rewrite Hl. now rewrite IH.
Qed.

End RecordFacts.

Module ViewFacts.

Import Http Capture Observe Calls.
Import StageFacts RunFacts.

(** A run leaves no event, or its sink-side observations are those of its
    logging block. *)
Lemma serve_fallback_view (w : World) (req : Request) :
  fst (serve w req) = [] \/
  exists m t rh rb f d,
    let tl := fst (log_exchange w m t rh rb f d) in
    let tr := fst (serve w req) in
    insert_errors tr = insert_errors tl /\
    rows_offered tr = rows_offered tl /\
    bucket_checks tr = bucket_checks tl /\
    bucket_creations tr = bucket_creations tl /\
    uploads tr = uploads tl.
Proof.
  destruct (String.eqb_spec (method req) "OPTIONS") as [Hm|Hm];
    [left; apply serve_silent; now left|].
  destruct (targetUrl w req) as [target|e] eqn:Ht;
    [|left; apply serve_silent; right; now exists e].
  right. destruct (serve_sinks w req target Hm Ht) as (rb & f & Hg).
  exists (method req), target, (requestHeaders req), rb, f,
         (Date_now_after w - Date_now_before w).
  cbv zeta.
  unfold insert_errors, rows_offered, bucket_checks, bucket_creations, uploads.
  repeat split; apply Hg; intros [] ?; simpl in *;
    solve [reflexivity | congruence].
Qed.

End ViewFacts.

(** *** Further properties: what is forwarded *)

(** X6: every call the handler makes to the upstream goes to the target URL
    it resolved, which ends with the inbound query string; it carries the
    inbound method and the inbound body untouched, and the inbound headers
    without [host] and [x-proxy-target]: these two are never sent on, every
    other header is, with its value. *)
Theorem X6_what_is_forwarded
    (w : World) (req : Request) (u m : string) (h : headers) (b : body) :
  In (u, m, h, b) (fetch_calls (fst (serve w req))) ->
  targetUrl w req = Ok u /\
  m = method req /\
  b = req_body req /\
  (forall k v,
     In (k, v) h <->
     In (k, v) (req_headers req) /\ k <> "host" /\ k <> "x-proxy-target") /\
  get h "host" = None /\
  get h "x-proxy-target" = None /\
  exists href, u = href ++ search (url req).
Proof.
  intros Hin.
  destruct (String.eqb_spec (method req) "OPTIONS") as [Hm|Hm].
  { rewrite RunFacts.serve_silent in Hin by now left. destruct Hin. }
  destruct (targetUrl w req) as [target|e] eqn:Ht.
  2: { rewrite RunFacts.serve_silent in Hin by (right; now exists e).
       destruct Hin. }
  destruct (RecordFacts.serve_records w req target Hm Ht)
    as (tf & f & _ & Hcalls & _).
  cbv zeta in Hcalls. rewrite Hcalls in Hin.
  destruct Hin as [Heq|[]]. inversion Heq; subst u m h b. clear Heq.
  split; [reflexivity|]. split; [reflexivity|]. split; [reflexivity|].
  unfold forwardHeaders. split; [|split; [|split]].
  - intros k v. rewrite !RecordFacts.delete_In.
    change (JS.toLowerCase "host") with "host".
    change (JS.toLowerCase "x-proxy-target") with "x-proxy-target".
    tauto.
  - rewrite RecordFacts.get_delete_other by discriminate.
    apply RecordFacts.get_delete.
  - apply RecordFacts.get_delete.
  - unfold targetUrl in Ht.
    destruct (Resolve.resolve req) as [base path].
    destruct (normalizedTargetBase base); [|discriminate Ht].
    destruct (URL_href w _ _) as [href|]; [|discriminate Ht].
    exists href. now inversion Ht.
Qed.

Lemma X6_what_is_forwarded_witness :
  targetUrl (healthy upstream_image) (PUT_binary "/functions/v1/capture/files/7")
    = Ok "https://files.example/api/files/7?v=2" /\
  get [("content-type", "application/octet-stream");
       ("x-forwarded-for", "203.0.113.7")] "host" = None.
Proof.
  destruct (X6_what_is_forwarded
              (healthy upstream_image)
              (PUT_binary "/functions/v1/capture/files/7")
              "https://files.example/api/files/7?v=2" "PUT"
              [("content-type", "application/octet-stream");
               ("x-forwarded-for", "203.0.113.7")]
              (Bytes "raw" true))
    as (Hu & _ & _ & _ & Hhost & _).
  - left. reflexivity.
  - split; [exact Hu | exact Hhost].
Defined.

(** X7: nothing is retried. In any run the handler calls the upstream at
    most once, reads the request body and the response body at most once
    each, and makes at most one insert, one bucket check, one bucket
    creation and one upload. *)
Theorem X7_no_call_is_made_twice (w : World) (req : Request) :
  let t := fst (serve w req) in
  (length (fetch_calls t) <= 1)%nat /\
  (length (request_reads t) <= 1)%nat /\
  (length (response_reads t) <= 1)%nat /\
  (length (rows_offered t) <= 1)%nat /\
  (length (bucket_checks t) <= 1)%nat /\
  (length (bucket_creations t) <= 1)%nat /\
  (length (uploads t) <= 1)%nat.
Proof.
  cbv zeta.
  assert (Hsinks : (length (rows_offered (fst (serve w req))) <= 1)%nat /\
                   (length (bucket_checks (fst (serve w req))) <= 1)%nat /\
                   (length (bucket_creations (fst (serve w req))) <= 1)%nat /\
                   (length (uploads (fst (serve w req))) <= 1)%nat).
  { destruct (ViewFacts.serve_fallback_view w req)
      as [->|(m & t & rh & rb & f & d & _ & -> & -> & -> & ->)].
    - simpl. repeat split; lia.
    - apply SinkFacts.log_exchange_once. }
  destruct Hsinks as (H4 & H5 & H6 & H7).
  destruct (String.eqb_spec (method req) "OPTIONS") as [Hm|Hm].
  { rewrite RunFacts.serve_silent in * by now left. simpl. repeat split; lia. }
  destruct (targetUrl w req) as [target|e] eqn:Ht.
  2: { rewrite RunFacts.serve_silent in * by (right; now exists e).
       simpl. repeat split; lia. }
  destruct (RecordFacts.serve_records w req target Hm Ht)
    as (tf & f & Hf & Hcalls & Hreq & Hres & _).
  cbv zeta in *. rewrite Hcalls, Hreq, Hres.
  pose proof (RunFacts.forward_calls w target (method req) (forwardHeaders req)
                                     (req_body req)) as [_ Hr].
  rewrite Hf in Hr. cbn [fst] in Hr.
  repeat split; try assumption; [simpl; lia|].
  rewrite RunFacts.read_request_body_trace.
  destruct (isTextualRequest req); [|simpl; lia].
  destruct (text w (req_body req)); simpl; lia.
Qed.

(** X8: a record is handed to a sink only for a request that was forwarded,
    and it names that call: its URL and method are those of the one call
    made to the upstream, its request headers are the inbound headers and
    its duration is the difference of the two clock readings. *)
Theorem X8_the_record_names_the_call_made
    (w : World) (req : Request) (row : LogRow) :
  In row (rows_offered (fst (serve w req))) ->
  fetch_calls (fst (serve w req))
    = [(row_url row, row_method row, forwardHeaders req, req_body req)] /\
  row_method row = method req /\
  targetUrl w req = Ok (row_url row) /\
  request_headers row = requestHeaders req /\
  duration_ms row = Date_now_after w - Date_now_before w.
Proof.
  intros Hin.
  destruct (String.eqb_spec (method req) "OPTIONS") as [Hm|Hm].
  { rewrite RunFacts.serve_silent in Hin by now left. destruct Hin. }
  destruct (targetUrl w req) as [target|e] eqn:Ht.
  2: { rewrite RunFacts.serve_silent in Hin by (right; now exists e).
       destruct Hin. }
  destruct (RecordFacts.serve_records w req target Hm Ht)
    as (tf & f & _ & Hcalls & _ & _ & Hrows & _).
  cbv zeta in *. rewrite Forall_forall in Hrows.
  rewrite (Hrows row Hin), Hcalls. now repeat split.
Qed.

Lemma X8_the_record_names_the_call_made_witness :
  exists row,
    In row (rows_offered (fst (serve (healthy upstream_json)
                                     (GET "/functions/v1/capture/echo/ping")))) /\
    row_url row = "https://echo.free.beeceptor.com/ping" /\
    duration_ms row = 42.
Proof.
  eexists. split; [left; reflexivity|].
  destruct (X8_the_record_names_the_call_made
              (healthy upstream_json) (GET "/functions/v1/capture/echo/ping")
              _ (or_introl eq_refl))
    as (_ & _ & Hu & _ & Hd).
  split; [|exact Hd]. simpl. reflexivity.
Defined.

(** X9: the two sinks are given the same record. When the fallback uploads
    a document for a row the table refused, the document's method, URL,
    status, duration, request headers and body, and response headers and
    body are those of the row. *)
Theorem X9_row_and_document_agree
    (w : World) (req : Request) (row : LogRow) (doc : LogEntry) :
  In row (rows_offered (fst (serve w req))) ->
  In doc (docs_offered (fst (serve w req))) ->
  meta_method doc = row_method row /\
  meta_url doc = row_url row /\
  meta_status doc = response_status row /\
  meta_duration doc = duration_ms row /\
  entry_request_headers doc = request_headers row /\
  entry_request_body doc = request_body row /\
  entry_response_headers doc = response_headers row /\
  entry_response_body doc = response_body row.
Proof.
  intros Hrow Hdoc.
  destruct (String.eqb_spec (method req) "OPTIONS") as [Hm|Hm].
  { rewrite RunFacts.serve_silent in Hrow by now left. destruct Hrow. }
  destruct (targetUrl w req) as [target|e] eqn:Ht.
  2: { rewrite RunFacts.serve_silent in Hrow by (right; now exists e).
       destruct Hrow. }
  destruct (RecordFacts.serve_records w req target Hm Ht)
    as (tf & f & _ & _ & _ & _ & Hrows & Hdocs).
  cbv zeta in *. rewrite Forall_forall in Hrows, Hdocs.
  rewrite (Hrows row Hrow), (Hdocs doc Hdoc). now repeat split.
Qed.

Lemma X9_row_and_document_agree_witness :
  exists row doc,
    In row (rows_offered (fst (serve (table_missing upstream_json true)
                                     (GET "/functions/v1/capture/openai/v1/models")))) /\
    In doc (docs_offered (fst (serve (table_missing upstream_json true)
                                     (GET "/functions/v1/capture/openai/v1/models")))) /\
    meta_url doc = row_url row /\
    entry_response_body doc = response_body row.
Proof.
  eexists _, _. split; [left; reflexivity|]. split; [left; reflexivity|].
  destruct (X9_row_and_document_agree
              (table_missing upstream_json true)
              (GET "/functions/v1/capture/openai/v1/models")
              _ _ (or_introl eq_refl) (or_introl eq_refl))
    as (_ & Hu & _ & _ & _ & _ & _ & Hb).
  split; [exact Hu | exact Hb].
Defined.

(** *** Further properties: what is captured *)

(** X10: whatever the upstream answers, error statuses included, is logged
    as it came: every record handed to a sink carries the upstream's status
    and the upstream's headers as a plain object. *)
Theorem X10_upstream_status_and_headers_are_logged_as_received
    (w : World) (req : Request) (target : string) (r : Response) :
  method req <> "OPTIONS" ->
  targetUrl w req = Ok target ->
  fetch w target (method req) (forwardHeaders req) (req_body req) = Ok r ->
  let t := fst (serve w req) in
  Forall (fun row => response_status row = status r /\
                     response_headers row = JS.fromEntries (entries (res_headers r)))
         (rows_offered t) /\
  Forall (fun doc => meta_status doc = status r /\
                     entry_response_headers doc
                       = JS.fromEntries (entries (res_headers r)))
         (docs_offered t).
Proof.
  intros Hm Ht Hfetch. cbv zeta.
  destruct (RecordFacts.serve_records w req target Hm Ht)
    as (tf & f & Hf & _ & _ & _ & Hrows & Hdocs).
  cbv zeta in *.
  destruct (RecordFacts.forward_mirrors _ _ _ _ _ _ Hfetch) as (tf' & c & Hf').
  rewrite Hf in Hf'. inversion Hf'; subst tf' f. clear Hf'.
  split; (eapply Forall_impl; [|eassumption]); now intros x ->.
Qed.

Lemma X10_upstream_status_and_headers_are_logged_as_received_witness :
  map response_status
      (rows_offered (fst (serve (healthy upstream_not_found)
                                (GET "/functions/v1/capture/openai/v1/nothing"))))
    = [404].
Proof.
  destruct (X10_upstream_status_and_headers_are_logged_as_received
              (healthy upstream_not_found)
              (GET "/functions/v1/capture/openai/v1/nothing")
              "https://api.openai.com/v1/nothing" upstream_not_found)
    as (Hrows & _).
  - discriminate.
  - reflexivity.
  - reflexivity.
  - cbv zeta in Hrows.
    destruct (rows_offered _) as [|row [|row' rest]] eqn:Hr;
      [discriminate Hr | | discriminate Hr].
    inversion Hrows as [|? ? [Hst _] _]; subst. simpl. now rewrite Hst.
Defined.

(** X11: a response that is neither an event stream nor JSON or text (an
    image, a binary download) is never read by the handler, and the records
    hold no response body for it. *)
Theorem X11_other_content_types_are_not_captured
    (w : World) (req : Request) (target : string) (r : Response) :
  method req <> "OPTIONS" ->
  targetUrl w req = Ok target ->
  fetch w target (method req) (forwardHeaders req) (req_body req) = Ok r ->
  isStreaming r = false ->
  isTextual r = false ->
  let t := fst (serve w req) in
  response_reads t = [] /\
  Forall (fun row => response_body row = None) (rows_offered t) /\
  Forall (fun doc => entry_response_body doc = None) (docs_offered t).
Proof.
  intros Hm Ht Hfetch Hs Htx. cbv zeta.
  destruct (RecordFacts.serve_records w req target Hm Ht)
    as (tf & f & Hf & _ & _ & Hres & Hrows & Hdocs).
  cbv zeta in *.
  rewrite (StageFacts.forward_other _ _ _ _ _ _ Hfetch Hs Htx) in Hf.
  inversion Hf; subst tf f. clear Hf. rewrite Hres.
  split; [reflexivity|].
  split; (eapply Forall_impl; [|eassumption]); now intros x ->.
Qed.

Lemma X11_other_content_types_are_not_captured_witness :
  response_reads
    (fst (serve (healthy upstream_image) (GET "/functions/v1/capture/echo/logo.png")))
    = [].
Proof.
  destruct (X11_other_content_types_are_not_captured
              (healthy upstream_image) (GET "/functions/v1/capture/echo/logo.png")
              "https://echo.free.beeceptor.com/logo.png" upstream_image)
    as (Hreads & _).
  - discriminate.
  - reflexivity.
  - reflexivity.
  - reflexivity.
  - reflexivity.
  - exact Hreads.
Defined.



(** X13: for a request whose header names are distinct (as a [Headers]
    object has them), the row's client address is the [x-forwarded-for]
    header, and null when that header is absent or empty; the fallback
    document holds the header as it is, undefined when absent. *)
Theorem X13_client_ip_is_the_forwarded_for_header
    (w : World) (req : Request) :
  NoDup (map fst (req_headers req)) ->
  let t := fst (serve w req) in
  Forall (fun row =>
            client_ip row = match get (req_headers req) "x-forwarded-for" with
                            | Some "" => None
                            | o => o
                            end) (rows_offered t) /\
  Forall (fun doc =>
            meta_ip doc = match get (req_headers req) "x-forwarded-for" with
                          | Some v => JS.Str v
                          | None => JS.Undefined
                          end) (docs_offered t).
Proof.
  intros Hnd. cbv zeta.
  destruct (String.eqb_spec (method req) "OPTIONS") as [Hm|Hm].
  { rewrite RunFacts.serve_silent by now left. split; constructor. }
  destruct (targetUrl w req) as [target|e] eqn:Ht.
  2: { rewrite RunFacts.serve_silent by (right; now exists e).
       split; constructor. }
  destruct (RecordFacts.serve_records w req target Hm Ht)
    as (tf & f & _ & _ & _ & _ & Hrows & Hdocs).
  cbv zeta in *.
  assert (Hobj : requestHeaders req = req_headers req).
  { unfold requestHeaders, JS.fromEntries, entries.
    now rewrite (RecordFacts.fromEntries_distinct (req_headers req) []). }
  rewrite Hobj in *.
  assert (Hget : JS.get (req_headers req) "x-forwarded-for"
                 = match get (req_headers req) "x-forwarded-for" with
                   | Some v => JS.Str v
                   | None => JS.Undefined
                   end).
  { unfold JS.get.
    rewrite (RecordFacts.own_is_get (req_headers req) "x-forwarded-for" eq_refl).
    destruct (get (req_headers req) "x-forwarded-for"); reflexivity. }
  split; (eapply Forall_impl; [|eassumption]); intros x ->; simpl.
  - unfold get_or_null. rewrite Hget.
    destruct (get (req_headers req) "x-forwarded-for") as [v|]; [|reflexivity].
    unfold JS.or, JS.truthy.
    destruct (String.eqb_spec v "") as [->|Hne]; [reflexivity|].
    simpl. destruct v; [contradiction | reflexivity].
  - exact Hget.
Qed.

Lemma X13_client_ip_is_the_forwarded_for_header_witness :
  map client_ip
      (rows_offered (fst (serve (healthy upstream_image)
                                (PUT_binary "/functions/v1/capture/files/7"))))
    = [Some "203.0.113.7"].
Proof.
  destruct (X13_client_ip_is_the_forwarded_for_header
              (healthy upstream_image) (PUT_binary "/functions/v1/capture/files/7"))
    as (Hrows & _).
  - repeat constructor; simpl; intros H;
      repeat destruct H as [H|H]; discriminate H || exact H.
  - cbv zeta in Hrows.
    destruct (rows_offered _) as [|row [|row' rest]] eqn:Hr;
      [discriminate Hr | | discriminate Hr].
    inversion Hrows as [|? ? Hip _]; subst. simpl. now rewrite Hip.
Defined.

(** *** Further properties: the storage fallback *)



(** X15: every document goes to the bucket [capture_logs] as
    [application/json], under a key made of the timestamp in which each
    colon and each dot is replaced by a hyphen and every other character is
    kept, an underscore, the first eight characters of the random identifier
    (all of it when it is shorter), and [.json]. *)
Theorem X15_object_key_of_the_fallback
    (w : World) (req : Request) (bucket key ctype : string) :
  In (bucket, key, ctype) (uploads (fst (serve w req))) ->
  bucket = "capture_logs" /\
  ctype = "application/json" /\
  exists stamp id,
    key = stamp ++ "_" ++ id ++ ".json" /\
    chars stamp
      = map (fun c => if (Ascii.eqb c ":" || Ascii.eqb c ".")%bool
                      then "-"%char else c) (chars (toISOString w)) /\
    String.length stamp = String.length (toISOString w) /\
    ~ In ":"%char (chars stamp) /\
    ~ In "."%char (chars stamp) /\
    id = substring 0 8 (randomUUID w) /\
    (String.length id <= 8)%nat.
Proof.
  intros Hin.
  destruct (ViewFacts.serve_fallback_view w req)
    as [He|(m & t & rh & rb & f & d & _ & _ & _ & _ & Hu)].
  { rewrite He in Hin. destruct Hin. }
  cbv zeta in Hu. rewrite Hu in Hin.
  destruct (SinkFacts.log_exchange_upload w m t rh rb f d _ _ _ Hin)
    as (Hb & Hc & Hk).
  split; [exact Hb|]. split; [exact Hc|].
  exists (JS.dash_colons_dots (toISOString w)), (substring 0 8 (randomUUID w)).
  split; [exact Hk|]. split; [apply SegmentFacts.dash_chars|].
  split; [apply SegmentFacts.dash_length|].
  split; [apply SegmentFacts.dash_clean|].
  split; [apply SegmentFacts.dash_clean|].
  split; [reflexivity | apply SegmentFacts.substring_length_le].
Qed.

Lemma X15_object_key_of_the_fallback_witness :
  In ("capture_logs", "2024-02-05T10-11-12-345Z_123e4567.json", "application/json")
     (uploads (fst (serve (table_missing upstream_json true)
                          (GET "/functions/v1/capture/openai/v1/models")))) /\
  exists stamp id,
    "2024-02-05T10-11-12-345Z_123e4567.json" = stamp ++ "_" ++ id ++ ".json" /\
    chars stamp
      = map (fun c => if (Ascii.eqb c ":" || Ascii.eqb c ".")%bool
                      then "-"%char else c)
            (chars (toISOString (table_missing upstream_json true))) /\
    String.length stamp
      = String.length (toISOString (table_missing upstream_json true)) /\
    ~ In ":"%char (chars stamp) /\
    ~ In "."%char (chars stamp) /\
    id = substring 0 8 (randomUUID (table_missing upstream_json true)) /\
    (String.length id <= 8)%nat.
Proof.
  split; [left; reflexivity|].
  apply (X15_object_key_of_the_fallback
           (table_missing upstream_json true)
           (GET "/functions/v1/capture/openai/v1/models")
           "capture_logs" "2024-02-05T10-11-12-345Z_123e4567.json"
           "application/json").
  left. reflexivity.
Defined.

(** *** Further properties: the installer script *)

Import Installer.

(** X16: the script ends with status 0 exactly when the host has [apt-get]
    or [yum], and with status 1 otherwise; without a package manager it
    prints one line and runs no command at all, whatever else is or is not
    installed. *)
Theorem X16_installer_needs_a_package_manager (h : Host) :
  (snd (script h) = 0 <-> has_apt_get h = true \/ has_yum h = true) /\
  (snd (script h) = 1 <-> has_apt_get h = false /\ has_yum h = false) /\
  (has_apt_get h = false -> has_yum h = false ->
   exists line, fst (script h) = [Echo line]).
Proof.
  unfold script, PACKAGE_MANAGER.
  destruct (has_apt_get h), (has_yum h); cbn [fst snd];
    (split; [|split]); try (intros; discriminate);
    try (split; intros; try lia; try tauto; try discriminate;
         intuition discriminate).
  intros _ _. eexists. reflexivity.
Qed.

(** X17: on a host with a package manager the script first updates the
    package index, with [apt-get] when it is there and with [yum] otherwise.
    The Docker installer is downloaded and the service enabled and started
    exactly when [docker] is missing; the Compose binary is downloaded (for
    this host's [uname -s] and [uname -m]) and made executable exactly when
    [docker-compose] is missing. On a host that has both, nothing changes
    beyond that update. *)
Theorem X17_installer_installs_only_what_is_missing (h : Host) (pm : string) :
  PACKAGE_MANAGER h = Some pm ->
  let steps := fst (script h) in
  pm = (if has_apt_get h then "apt-get" else "yum") /\
  hd_error steps = Some (Run ["sudo"; pm; "update"; "-y"]) /\
  (In (Pipe ["wget"; "-qO-"; "get.docker.com"] ["bash"]) steps
     <-> has_docker h = false) /\
  (In (Run ["sudo"; "systemctl"; "enable"; "docker"]) steps
     <-> has_docker h = false) /\
  (In (Run ["sudo"; "systemctl"; "start"; "docker"]) steps
     <-> has_docker h = false) /\
  (In (Run ["sudo"; "curl"; "-L";
            "https://github.com/docker/compose/releases/download/1.29.2/docker-compose-"
              ++ uname_s h ++ "-" ++ uname_m h;
            "-o"; "/usr/local/bin/docker-compose"]) steps
     <-> has_docker_compose h = false) /\
  (In (Run ["sudo"; "chmod"; "+x"; "/usr/local/bin/docker-compose"]) steps
     <-> has_docker_compose h = false) /\
  length (filter downloads steps)
    = ((if has_docker h then 0 else 1)
       + (if has_docker_compose h then 0 else 1))%nat /\
  (has_docker h = true -> has_docker_compose h = true ->
   filter changes_host steps = [Run ["sudo"; pm; "update"; "-y"]]).
Proof.
  intros Hpm. cbv zeta. unfold script. rewrite Hpm. cbn [fst].
  assert (Hname : pm = (if has_apt_get h then "apt-get" else "yum")).
  { unfold PACKAGE_MANAGER in Hpm.
    destruct (has_apt_get h); [now inversion Hpm|].
    destruct (has_yum h); [now inversion Hpm | discriminate Hpm]. }
  split; [exact Hname|]. split; [reflexivity|].
  assert (Hcases : pm = "apt-get" \/ pm = "yum")
    by (rewrite Hname; destruct (has_apt_get h); tauto).
  unfold install_docker, install_compose.
  repeat split; try (intros Hin); try (intros Hd Hc);
    destruct (has_docker h), (has_docker_compose h);
    destruct Hcases as [-> | ->];
    try reflexivity; try discriminate;
    simpl in *;
    try (repeat match goal with
                | H : _ \/ _ |- _ => destruct H as [H|H]
                | H : False |- _ => destruct H
                end; discriminate);
    tauto.
Qed.

Lemma X17_installer_installs_only_what_is_missing_witness :
  let h := mkHost false true true false "Linux" "x86_64" in
  hd_error (fst (script h)) = Some (Run ["sudo"; "yum"; "update"; "-y"]) /\
  ~ In (Pipe ["wget"; "-qO-"; "get.docker.com"] ["bash"]) (fst (script h)) /\
  In (Run ["sudo"; "curl"; "-L";
           "https://github.com/docker/compose/releases/download/1.29.2/docker-compose-Linux-x86_64";
           "-o"; "/usr/local/bin/docker-compose"]) (fst (script h)).
Proof.
  cbv zeta.
  destruct (X17_installer_installs_only_what_is_missing
              (mkHost false true true false "Linux" "x86_64") "yum" eq_refl)
    as (_ & Hhd & Hwget & _ & _ & Hcurl & _).
  cbv zeta in *. split; [exact Hhd|]. split.
  - intro Hin. apply Hwget in Hin. discriminate Hin.
  - apply Hcurl. reflexivity.
Defined.

(** *** Further properties: the rules of the resolution, in general *)

(** X18: with no override, for a path [/pre.../a/post...] whose segment [a]
    is a key of the Alias Table and whose earlier segments are plain
    (neither a key nor a name inherited from [Object.prototype]), the base is
    the entry of [a] and the forwarded path is [/post...]; a mount-point
    segment after the alias is forwarded, not stripped. *)
Theorem X18_first_alias_decides
    (req : Request) (pre post : list string) (a v : string) :
  no_override req ->
  pathname (url req) = path_of (pre ++ a :: post) ->
  Forall segment (pre ++ a :: post) ->
  Forall plain pre ->
  alias_entry a = Some v ->
  Resolve.resolve req = (JS.Str v, path_of post).
Proof. apply ResolveFacts.resolve_alias_path. Qed.

Lemma X18_first_alias_decides_witness :
  Resolve.resolve (GET (path_of ["v1"; "deepseek"; "capture"; "chat"]))
    = (JS.Str "https://api.deepseek.com", path_of ["capture"; "chat"]).
Proof.
  apply (X18_first_alias_decides
           (GET (path_of ["v1"; "deepseek"; "capture"; "chat"]))
           ["v1"] ["capture"; "chat"] "deepseek" "https://api.deepseek.com").
  - split; left; reflexivity.
  - reflexivity.
  - repeat constructor; discriminate.
  - repeat constructor.
  - reflexivity.
Defined.

(** X19: with no override and only plain segments in the path, the base is
    [https://api.anthropic.com], and the forwarded path is: what follows
    the first [capture] segment when there is one; else, under
    [/functions/v1/<name>/...], what follows these three segments; else the
    inbound path, unchanged. *)
Theorem X19_default_upstream_rules (req : Request) :
  no_override req ->
  Forall plain (Resolve.pathSegments (url req)) ->
  (forall pre post,
     Resolve.pathSegments (url req) = (pre ++ "capture" :: post)%list ->
     ~ In "capture" pre ->
     Resolve.resolve req = (JS.Str "https://api.anthropic.com", path_of post)) /\
  (forall name rest,
     ~ In "capture" (Resolve.pathSegments (url req)) ->
     Resolve.pathSegments (url req) = "functions" :: "v1" :: name :: rest ->
     Resolve.resolve req = (JS.Str "https://api.anthropic.com", path_of rest)) /\
  (~ In "capture" (Resolve.pathSegments (url req)) ->
   (forall name rest,
      Resolve.pathSegments (url req) <> "functions" :: "v1" :: name :: rest) ->
   Resolve.resolve req = (JS.Str "https://api.anthropic.com", pathname (url req))).
Proof.
  intros Hno Hplain. split; [|split].
  - intros pre post Hsegs Hpre.
    now apply (ResolveFacts.resolve_default_capture req pre post).
  - intros name rest Hnc Hsegs.
    now apply (ResolveFacts.resolve_default_prefix req name rest).
  - intros Hnc Hshape. now apply ResolveFacts.resolve_default_unchanged.
Qed.

Lemma X19_default_upstream_rules_witness :
  Resolve.resolve (GET "/functions/v1/proxy/v1/messages")
    = (JS.Str "https://api.anthropic.com", path_of ["v1"; "messages"]).
Proof.
  destruct (X19_default_upstream_rules (GET "/functions/v1/proxy/v1/messages"))
    as (_ & Hprefix & _).
  - split; left; reflexivity.
  - repeat constructor.
  - apply (Hprefix "proxy" ["v1"; "messages"]); [|reflexivity].
    simpl. intros H. repeat destruct H as [H|H]; discriminate H || exact H.
Defined.

(** X20: when the call to the upstream fails, the record handed to a sink
    holds an empty object as response headers, although the 502 response
    given to the caller carries a content type. *)
Theorem X20_failed_call_is_logged_without_headers
    (w : World) (req : Request) (target e : string) :
  method req <> "OPTIONS" ->
  targetUrl w req = Ok target ->
  fetch w target (method req) (forwardHeaders req) (req_body req) = Throw e ->
  let t := fst (serve w req) in
  Forall (fun row => response_headers row = []) (rows_offered t) /\
  Forall (fun doc => entry_response_headers doc = []) (docs_offered t) /\
  res_headers (bad_gateway e) = [("content-type", "text/plain;charset=UTF-8")].
Proof.
  intros Hm Ht Hfetch. cbv zeta.
  destruct (RecordFacts.serve_records w req target Hm Ht)
    as (tf & f & Hf & _ & _ & _ & Hrows & Hdocs).
  cbv zeta in *.
  rewrite (StageFacts.forward_failed _ _ _ _ _ _ Hfetch) in Hf.
  inversion Hf; subst tf f. clear Hf.
  split; [|split; [|reflexivity]];
    (eapply Forall_impl; [|eassumption]); now intros x ->.
Qed.

Lemma X20_failed_call_is_logged_without_headers_witness :
  map response_headers
      (rows_offered (fst (serve unreachable
                                (GET "/functions/v1/capture/openai/v1/models"))))
    = [[]].
Proof.
  destruct (X20_failed_call_is_logged_without_headers
              unreachable (GET "/functions/v1/capture/openai/v1/models")
              "https://api.openai.com/v1/models" "connection refused")
    as (Hrows & _).
  - discriminate.
  - reflexivity.
  - reflexivity.
  - cbv zeta in Hrows.
    destruct (rows_offered _) as [|row [|row' rest]] eqn:Hr;
      [discriminate Hr | | discriminate Hr].
    inversion Hrows as [|? ? Hh _]; subst. simpl. now rewrite Hh.
Defined.

(* ------------------------------------------------------------------------- *)
(** ** The outcome of the logging block, and of the run *)

Module OutcomeFacts.

Import Http Capture Observe Calls.
Import StageFacts RunFacts.

Section Outcome.

Variable w : World.
Variables (m t : string) (rh : JS.object) (rb : option string).
Variables (f : Forwarded) (d : Z).

Let lg : M unit := log_exchange w m t rh rb f d.

Let row : LogRow :=
  mkLogRow m t rh rb (responseStatus f) (responseHeaders f) (responseBody f) d
           (get_or_null rh "x-forwarded-for").

(** The logging block returns exactly when its [insert] call is answered;
    otherwise a client constructor or the [insert] call threw, and nothing
    was stored. *)
Lemma log_exchange_outcome :
  (exists o, insert_answers (fst lg) = [o] /\ snd lg = Ok tt /\
             rows_offered (fst lg) = [row]) \/
  (insert_answers (fst lg) = [] /\ rows_inserted (fst lg) = [] /\
   docs_offered (fst lg) = [] /\ blobs_created (fst lg) = [] /\
   exists msg,
     snd lg = Throw msg /\
     (createClient w (env_or_empty w "SUPABASE_URL")
                     (env_or_empty w "SUPABASE_SERVICE_ROLE_KEY") = Throw msg \/
      createClient w (env_or_empty w "SUPABASE_URL")
                     (env_or_empty w "SUPABASE_ANON_KEY") = Throw msg \/
      exists c,
        createClient w (env_or_empty w "SUPABASE_URL")
                       (env_or_empty w "SUPABASE_SERVICE_ROLE_KEY") = Ok c /\
        insert w c "api_logs" row = Throw msg)).
Proof.
  unfold lg, row, log_exchange, storage_fallback. run.
  destruct (createClient w (env_or_empty w "SUPABASE_URL")
                         (env_or_empty w "SUPABASE_SERVICE_ROLE_KEY"))
    as [c1|e1].
  2: { right. repeat split. exists e1. split; [reflexivity | now left]. }
  destruct (createClient w (env_or_empty w "SUPABASE_URL")
                         (env_or_empty w "SUPABASE_ANON_KEY")) as [c2|e2].
  2: { right. repeat split. exists e2. split; [reflexivity | right; now left]. }
  cbv beta iota zeta.
  destruct (insert w c1 "api_logs" _) as [o|e3] eqn:Hins.
  2: { right. repeat split. exists e3. split; [reflexivity|].
       right; right. exists c1. now split. }
  left. exists o. destruct o as [msg|]; [|now repeat split].
  split_calls; simpl; now repeat split.
Qed.

(** What the storage fallback leaves, read off the answers it got. *)
Lemma log_exchange_blobs :
  (upload_answers (fst lg) = [Ok None] ->
     length (blobs_created (fst lg)) = 1%nat) /\
  (upload_answers (fst lg) <> [Ok None] -> blobs_created (fst lg) = []) /\
  length (docs_offered (fst lg)) = length (upload_answers (fst lg)) /\
  (length (upload_answers (fst lg)) <= 1)%nat /\
  ((exists o, bucket_checks (fst lg) = [Ok o]) ->
   (forall b e, ~ In (b, Throw e) (bucket_creations (fst lg))) ->
   length (upload_answers (fst lg)) = 1%nat).
Proof.
  unfold lg, log_exchange, storage_fallback. run.
  split_calls; simpl; split_calls; simpl; repeat split; intros;
    try reflexivity; try congruence; try lia;
    repeat match goal with
           | H : exists _, _ |- _ => destruct H
           | H : _ :: _ = _ :: _ |- _ => inversion H; clear H; subst
           | H : [] = _ :: _ |- _ => discriminate H
           | H : Throw _ = Ok _ |- _ => discriminate H
           | H : forall b e, ~ (_ \/ _) |- _ =>
               exfalso; eapply H; left; reflexivity
           end.
Qed.

End Outcome.

(** A run with a target URL, as one equation. *)
Lemma serve_equation (w : World) (req : Request) (target : string) :
  method req <> "OPTIONS" ->
  targetUrl w req = Ok target ->
  exists tf f,
    forward w target (method req) (forwardHeaders req) (req_body req)
      = (tf, Ok f) /\
    forallb forwarding_only tf = true /\
    let rb := if isTextualRequest req then
                match text w (req_body req) with
                | Ok s => Some s
                | Throw _ => None
                end
              else None in
    let lg := log_exchange w (method req) target (requestHeaders req) rb f
                           (Date_now_after w - Date_now_before w) in
    serve w req =
      ((fst (read_request_body w req (requestHeaders req))
        ++ Console "log" ("Proxying " ++ method req ++ " to " ++ target)
        :: tf ++ fst lg)%list,
       Ok match snd lg with
          | Ok _ => response f
          | Throw e => error_response e
          end).
Proof.
  intros Hm Ht.
  destruct (forward_returns w target (method req) (forwardHeaders req)
                            (req_body req)) as (tf & f & Hf & Hfw & _).
  exists tf, f. split; [exact Hf|]. split; [exact Hfw|]. cbv zeta.
  pose proof (read_request_body_value w req) as Hv.
  destruct (read_request_body w req (requestHeaders req)) as [tr r] eqn:Hr.
  cbn [fst snd] in *. subst r.
  unfold serve, proxy. apply String.eqb_neq in Hm. rewrite Hm, Ht.
  unfold requestHeaders, forwardHeaders in *.
  run. cbv beta iota zeta. rewrite Hr. cbv beta iota. rewrite Hf.
  cbv beta iota.
  destruct (log_exchange _ _ _ _ _ _ _) as [tl [[]|e]];
    simpl; rewrite <- ?app_assoc, ?app_nil_r; reflexivity.
Qed.

Ltac ignored p t :=
  rewrite (flat_map_ignored _ p t);
  [ | intros [] ?; simpl in *; solve [reflexivity | congruence]
    | assumption ].

(** What a run with a target URL returns and what its observers see: the
    sink side sees the logging block, the upstream side the forwarding
    block. *)
Lemma serve_view (w : World) (req : Request) (target : string) :
  method req <> "OPTIONS" ->
  targetUrl w req = Ok target ->
  exists tf f rb,
    forward w target (method req) (forwardHeaders req) (req_body req)
      = (tf, Ok f) /\
    let lg := log_exchange w (method req) target (requestHeaders req) rb f
                           (Date_now_after w - Date_now_before w) in
    let t := fst (serve w req) in
    snd (serve w req) = Ok match snd lg with
                           | Ok _ => response f
                           | Throw e => error_response e
                           end /\
    insert_answers t = insert_answers (fst lg) /\
    insert_errors t = insert_errors (fst lg) /\
    rows_offered t = rows_offered (fst lg) /\
    rows_inserted t = rows_inserted (fst lg) /\
    docs_offered t = docs_offered (fst lg) /\
    blobs_created t = blobs_created (fst lg) /\
    upload_answers t = upload_answers (fst lg) /\
    bucket_checks t = bucket_checks (fst lg) /\
    bucket_creations t = bucket_creations (fst lg) /\
    response_reads t = response_reads tf /\
    fetched t = fetched tf /\
    fetch_failures t = fetch_failures tf.
Proof.
  intros Hm Ht.
  destruct (serve_equation w req target Hm Ht) as (tf & f & Hf & Hfw & Hs).
  cbv zeta in Hs. eexists tf, f, _. split; [exact Hf|]. cbv zeta.
  rewrite Hs. cbn [fst snd].
  set (tr := fst (read_request_body w req (requestHeaders req))).
  assert (Htr : forallb inbound_only tr = true)
    by apply read_request_body_inbound.
  set (tl := fst (log_exchange _ _ _ _ _ _ _)).
  assert (Htl : forallb logging_only tl = true) by apply log_exchange_records.
  split; [reflexivity|].
  unfold insert_answers, insert_errors, rows_offered, rows_inserted,
    docs_offered, blobs_created, upload_answers, bucket_checks,
    bucket_creations, response_reads, fetched, fetch_failures.
  repeat split; rewrite flat_map_app; cbn [flat_map]; rewrite flat_map_app;
    first [ ignored inbound_only tr; ignored forwarding_only tf; reflexivity
          | ignored inbound_only tr; ignored logging_only tl;
            now rewrite ?app_nil_r ].
Qed.

(** A run leaves no event, or its sink side is that of its logging block. *)
Lemma serve_sink_cases (w : World) (req : Request) :
  fst (serve w req) = [] \/
  exists m t rh rb f d,
    let lg := log_exchange w m t rh rb f d in
    let tr := fst (serve w req) in
    insert_answers tr = insert_answers (fst lg) /\
    insert_errors tr = insert_errors (fst lg) /\
    rows_offered tr = rows_offered (fst lg) /\
    rows_inserted tr = rows_inserted (fst lg) /\
    docs_offered tr = docs_offered (fst lg) /\
    blobs_created tr = blobs_created (fst lg) /\
    upload_answers tr = upload_answers (fst lg) /\
    bucket_checks tr = bucket_checks (fst lg) /\
    bucket_creations tr = bucket_creations (fst lg).
Proof.
  destruct (String.eqb_spec (method req) "OPTIONS") as [Hm|Hm];
    [left; apply serve_silent; now left|].
  destruct (targetUrl w req) as [target|e] eqn:Ht;
    [|left; apply serve_silent; right; now exists e].
  right.
  destruct (serve_view w req target Hm Ht)
    as (tf & f & rb & _ & _ & H1 & H2 & H3 & H4 & H5 & H6 & H7 & H8 & H9 & _).
  exists (method req), target, (requestHeaders req), rb, f,
         (Date_now_after w - Date_now_before w).
  cbv zeta in *. now repeat split.
Qed.

End OutcomeFacts.

(** *** The response and the logging side effect *)

(** C2, on the code: the logging set-up is not guarded. With no logging
    configuration in the environment the [?? ''] defaults hand empty strings
    to the client constructor, which throws on them (as the one of supabase-js
    does); the call sits in the outer [try] only, so a request that was
    forwarded and answered with 200 is answered to the caller with the 500 of
    the outer [catch]. The claim says the caller gets the upstream's
    response. *)
Lemma C2_unconfigured_logging_changes_the_response :
  let w := unconfigured upstream_json in
  let req := GET "/functions/v1/capture/openai/v1/models" in
  method req <> "OPTIONS" /\
  (forall name, env_get w name = None) /\
  fetched (fst (serve w req)) = [upstream_json] /\
  snd (serve w req) = Ok (error_response "supabaseUrl is required.") /\
  ~ (snd (serve w req) = Ok upstream_json \/
     exists e, snd (serve w req) = Ok (bad_gateway e)).
Proof.
  cbv zeta. split; [discriminate|]. split; [reflexivity|].
  split; [reflexivity|]. split; [reflexivity|].
  intros [H | [e H]]; vm_compute in H; discriminate H.
Qed.

(** C7, on the code: the same unguarded set-up costs the caller the stream.
    With no logging configuration, an upstream that answers with an event
    stream is called, its body is never read, and yet the caller gets the
    500 of the outer [catch] instead of the stream; no record is handed to
    any sink. The claim says the stream is passed through. *)
Theorem C7_stream_is_lost_when_the_logging_set_up_throws :
  let w := unconfigured upstream_sse in
  let req := POST_json "/functions/v1/capture/anthropic/v1/messages" "{}" in
  method req <> "OPTIONS" /\
  isStreaming upstream_sse = true /\
  fetched (fst (serve w req)) = [upstream_sse] /\
  response_reads (fst (serve w req)) = [] /\
  rows_offered (fst (serve w req)) = [] /\
  docs_offered (fst (serve w req)) = [] /\
  snd (serve w req) = Ok (error_response "supabaseUrl is required.") /\
  snd (serve w req) <> Ok upstream_sse.
Proof.
  cbv zeta. split; [discriminate|].
  repeat (split; [reflexivity|]).
  intros H; vm_compute in H; discriminate H.
Qed.

(** *** Upstream failure and the client-visible status *)

(** C8, as stated, fails in its last part: a connect failure is not the only
    error that changes the status. An override target without a scheme
    makes the URL constructor throw; no call to the upstream is ever made,
    and the caller gets status 500. *)
Lemma C8_status_500_without_upstream_failure :
  let w := healthy upstream_json in
  let req := GET_with_target "/functions/v1/capture/v1/messages" "api.anthropic.com" in
  method req <> "OPTIONS" /\
  fetch_failures (fst (serve w req)) = [] /\
  fetched (fst (serve w req)) = [] /\
  snd (serve w req) = Ok (error_response "Invalid URL") /\
  status (error_response "Invalid URL") = 500.
Proof.
  cbv zeta. split; [discriminate|]. repeat split; reflexivity.
Qed.

(** C8 (amended): for every non-preflight request the handler returns a
    response. If the call to the upstream itself failed with message [e],
    the forwarder synthesizes status 502 with the body
    [Error connecting to upstream: e]; in every run whose insert call is
    answered, that response is what the caller gets and the one row handed
    to the table carries that status and that body, and so does the
    document of every upload made. If no call failed, the response is the
    upstream's own, with its status unchanged, unless an exception escaped.
    Besides the connect failure, an exception escaping to the outer [catch]
    also changes the status, to 500. *)
Theorem C8_upstream_failure_yields_502 (w : World) (req : Request) :
  method req <> "OPTIONS" ->
  let t := fst (serve w req) in
  exists resp,
    snd (serve w req) = Ok resp /\
    (forall e,
       fetch_failures t = [e] ->
       let described := "Error connecting to upstream: " ++ e in
       status (bad_gateway e) = 502 /\
       res_body (bad_gateway e) = Bytes described true /\
       (forall o, In o (insert_answers t) ->
          resp = bad_gateway e /\
          exists row, rows_offered t = [row] /\
                      response_status row = 502 /\
                      response_body row = Some described) /\
       (forall a, In a (upload_answers t) ->
          exists doc, docs_offered t = [doc] /\
                      meta_status doc = 502 /\
                      entry_response_body doc = Some described) /\
       (resp = bad_gateway e \/
        exists msg, resp = error_response msg /\ status resp = 500)) /\
    (fetch_failures t = [] ->
       fetched t = [resp] \/
       exists msg, resp = error_response msg /\ status resp = 500) /\
    (fetch_failures t = [] \/ exists e, fetch_failures t = [e]).
Proof.
  intros Hm t. subst t.
  destruct (targetUrl w req) as [target|msg] eqn:Ht.
  - destruct (OutcomeFacts.serve_view w req target Hm Ht)
      as (tf & f & rb & Hf & Hs & Hia & _ & Hro & _ & Hdo & _ & Hua & _ & _
          & _ & Hfe & Hff).
    cbv zeta in *.
    destruct (StageFacts.forward_returns w target (method req)
                (forwardHeaders req) (req_body req)) as (tf' & f' & Hf' & _ & Hsp).
    rewrite Hf in Hf'. inversion Hf'; subst tf' f'. clear Hf'.
    pose proof (OutcomeFacts.log_exchange_outcome w (method req) target
                  (requestHeaders req) rb f
                  (Date_now_after w - Date_now_before w)) as Hout.
    destruct (OutcomeFacts.log_exchange_blobs w (method req) target
                (requestHeaders req) rb f
                (Date_now_after w - Date_now_before w))
      as (_ & _ & Hlen & Hle & _).
    destruct (StageFacts.log_exchange_records w (method req) target
                (requestHeaders req) rb f
                (Date_now_after w - Date_now_before w)) as (_ & _ & Hdocs).
    cbv zeta in Hout, Hlen, Hle, Hdocs.
    rewrite Hs, Hia, Hro, Hdo, Hua, Hfe, Hff. clear Hs Hia Hro Hdo Hua Hfe Hff.
    eexists. split; [reflexivity|].
    destruct (fetch w target _ _ _) as [r|e'].
    + destruct Hsp as (Hr & _ & Hfd & Hfl). rewrite Hfd, Hfl.
      split; [intros e He; discriminate He|]. split; [|now left].
      intros _.
      destruct Hout as [(o & _ & Hok & _)|(_ & _ & _ & _ & m & Hthrow & _)].
      * rewrite Hok. left. now rewrite Hr.
      * rewrite Hthrow. right. exists m. now split.
    + destruct Hsp as (Hr & Hst & Hbd & Hfd & Hfl). rewrite Hfl.
      split; [|split; [intro He; discriminate He | right; now exists e']].
      intros e He. inversion He; subst e'. cbv zeta.
      split; [reflexivity|]. split; [reflexivity|].
      split; [|split].
      * intros o Hin.
        destruct Hout as [(o' & _ & Hok & Hrow)|(Hnone & _)].
        -- rewrite Hok, Hrow. split; [exact Hr|].
           eexists. split; [reflexivity|]. cbn [response_status response_body].
           now rewrite Hst, Hbd.
        -- rewrite Hnone in Hin. destruct Hin.
      * intros a Hin.
        destruct (docs_offered _) as [|doc [|doc' rest]] eqn:Hd.
        -- destruct (upload_answers _); [destruct Hin | discriminate Hlen].
        -- exists doc. split; [reflexivity|].
           inversion Hdocs as [|? ? Hdoc _]; subst.
           cbn [meta_status entry_response_body]. now rewrite Hst, Hbd.
        -- exfalso. rewrite <- Hlen in Hle. simpl in Hle. lia.
      * destruct Hout as [(o & _ & Hok & _)|(_ & _ & _ & _ & m & Hthrow & _)].
        -- rewrite Hok. now left.
        -- rewrite Hthrow. right. exists m. now split.
  - rewrite (StageFacts.serve_unresolved w req msg Hm Ht). cbn [fst snd].
    eexists. split; [reflexivity|].
    split; [intros e He; discriminate He|].
    split; [|now left]. intros _. right. exists msg. now split.
Qed.

Lemma C8_upstream_failure_yields_502_witness :
  snd (serve Worlds.unreachable_table_missing
             (GET "/functions/v1/capture/openai/v1/models"))
    = Ok (bad_gateway "connection refused") /\
  (exists row,
     rows_offered (fst (serve Worlds.unreachable_table_missing
                              (GET "/functions/v1/capture/openai/v1/models")))
       = [row] /\
     response_status row = 502 /\
     response_body row = Some "Error connecting to upstream: connection refused") /\
  (exists doc,
     docs_offered (fst (serve Worlds.unreachable_table_missing
                              (GET "/functions/v1/capture/openai/v1/models")))
       = [doc] /\
     meta_status doc = 502 /\
     entry_response_body doc
       = Some "Error connecting to upstream: connection refused").
Proof.
  destruct (C8_upstream_failure_yields_502 Worlds.unreachable_table_missing
              (GET "/functions/v1/capture/openai/v1/models"))
    as (resp & Hresp & Hfail & _).
  - discriminate.
  - destruct (Hfail "connection refused" eq_refl)
      as (_ & _ & Hrow & Hdoc & _).
    destruct (Hrow (Some "relation api_logs does not exist"))
      as (Hr & Hrows); [left; reflexivity|].
    split; [rewrite Hresp, Hr; reflexivity|].
    split; [exact Hrows|].
    apply (Hdoc (Ok None)). left. reflexivity.
Defined.

(** *** The two sinks *)




(** *** What is captured of the response body *)

(** C6, as stated, fails in two ways. When the read of a JSON body breaks
    off, the log holds the placeholder, not the bytes of the body handed to
    the caller. And what is logged is the decoded text, not the bytes: a JSON
    body that starts with a byte-order mark is returned with the mark and
    logged without it. *)
Lemma C6_logged_body_is_not_always_the_returned_bytes :
  (let w := healthy upstream_broken in
   let req := GET "/functions/v1/capture/openai/v1/models" in
   isTextual upstream_broken = true /\
   isStreaming upstream_broken = false /\
   snd (serve w req) = Ok upstream_broken /\
   map response_body (rows_inserted (fst (serve w req)))
     = [Some "[Error reading response body]"] /\
   Some (body_bytes (res_body upstream_broken))
     <> Some "[Error reading response body]") /\
  (let w := Worlds.decoding Worlds.upstream_bom in
   let req := GET "/functions/v1/capture/openai/v1/models" in
   isTextual Worlds.upstream_bom = true /\
   isStreaming Worlds.upstream_bom = false /\
   snd (serve w req) = Ok Worlds.upstream_bom /\
   map response_body (rows_inserted (fst (serve w req))) = [Some "{}"] /\
   body_bytes (res_body Worlds.upstream_bom) = Worlds.BOM ++ "{}" /\
   Some (body_bytes (res_body Worlds.upstream_bom)) <> Some "{}").
Proof.
  cbv zeta. split.
  - repeat split; try reflexivity. discriminate.
  - repeat split; try reflexivity. discriminate.
Qed.

(** C6 (amended): for every upstream response whose content type indicates
    JSON or text and is not an event stream, in every run whose insert call
    is answered: the caller gets the upstream's response itself and one row
    is handed to the table, with which every uploaded document agrees. When
    the read of the response clone succeeds, the row holds the decoded text
    of the body, which is byte-identical to the body returned to the caller
    whenever decoding returns the bytes unchanged (well-formed UTF-8 without
    a byte-order mark); a response without a body is logged as the empty
    text. When the read fails, the row holds the placeholder
    [[Error reading response body]]. *)
Theorem C6_logged_body_is_the_returned_body
    (w : World) (req : Request) (target : string) (r : Response)
    (o : option string) :
  method req <> "OPTIONS" ->
  targetUrl w req = Ok target ->
  fetch w target (method req) (forwardHeaders req) (req_body req) = Ok r ->
  isStreaming r = false ->
  isTextual r = true ->
  In o (insert_answers (fst (serve w req))) ->
  let t := fst (serve w req) in
  snd (serve w req) = Ok r /\
  exists row,
    rows_offered t = [row] /\
    Forall (fun doc => entry_response_body doc = response_body row)
           (docs_offered t) /\
    match res_body r with
    | Bytes data true =>
        response_body row = Some (utf8_decode w data) /\
        (utf8_decode w data = data ->
         response_body row = Some (body_bytes (res_body r)))
    | Bytes data false =>
        response_body row = Some "[Error reading response body]"
    | NoBody => response_body row = Some ""
    end.
Proof.
  intros Hm Ht Hfetch Hs Htx Hin. cbv zeta.
  destruct (OutcomeFacts.serve_view w req target Hm Ht)
    as (tf & f & rb & Hf & Hsv & Hia & _ & Hro & _ & Hdo & _).
  cbv zeta in *.
  rewrite (StageFacts.forward_textual _ _ _ _ _ _ Hfetch Hs Htx) in Hf.
  inversion Hf; subst tf f. clear Hf.
  rewrite Hia in Hin. rewrite Hsv, Hro, Hdo. clear Hsv Hia Hro Hdo.
  match goal with
  | |- context [log_exchange w ?m ?t ?rh ?rb ?f ?d] =>
      pose proof (OutcomeFacts.log_exchange_outcome w m t rh rb f d) as Hout;
      destruct (StageFacts.log_exchange_records w m t rh rb f d)
        as (_ & _ & Hdocs)
  end.
  cbv zeta in Hout, Hdocs.
  destruct Hout as [(o' & _ & Hok & Hrow)|(Hnone & _)];
    [|rewrite Hnone in Hin; destruct Hin].
  rewrite Hok, Hrow. split; [reflexivity|].
  eexists. split; [reflexivity|]. cbn [response_body responseBody].
  split; [eapply Forall_impl; [|exact Hdocs]; now intros doc ->|].
  destruct (res_body r) as [|data [|]]; cbn [text body_bytes];
    try reflexivity.
  split; [reflexivity|]. now intros ->.
Qed.

Lemma C6_logged_body_is_the_returned_body_witness :
  snd (serve (Worlds.deployed upstream_json)
             (GET "/functions/v1/capture/openai/v1/models")) = Ok upstream_json /\
  exists row,
    rows_offered (fst (serve (Worlds.deployed upstream_json)
                             (GET "/functions/v1/capture/openai/v1/models")))
      = [row] /\
    response_body row = Some (body_bytes (res_body upstream_json)).
Proof.
  destruct (C6_logged_body_is_the_returned_body
              (Worlds.deployed upstream_json)
              (GET "/functions/v1/capture/openai/v1/models")
              "https://api.openai.com/v1/models" upstream_json None)
    as (Hret & row & Hrows & _ & Hbody).
  - discriminate.
  - reflexivity.
  - reflexivity.
  - reflexivity.
  - reflexivity.
  - left. reflexivity.
  - split; [exact Hret|]. exists row. split; [exact Hrows|].
    cbn [res_body upstream_json] in Hbody. destruct Hbody as [_ Hid].
    apply Hid. reflexivity.
Defined.

(** *** Further properties: the response and the logging block *)

(** X21: once the target URL is built, the logging block touches the
    caller's response only by throwing. In a run whose insert call is
    answered, with an error or without, the caller gets the upstream's own
    response, or the synthesized 502 when the call to the upstream failed,
    whatever the storage fallback does. In a run whose insert call is not
    answered, a client constructor or the insert call threw: the caller
    gets the 500 with that message and nothing is stored. *)
Theorem X21_logging_changes_the_response_only_by_throwing
    (w : World) (req : Request) (target : string) :
  method req <> "OPTIONS" ->
  targetUrl w req = Ok target ->
  let t := fst (serve w req) in
  let forwarded :=
    match fetch w target (method req) (forwardHeaders req) (req_body req) with
    | Ok r => r
    | Throw e => bad_gateway e
    end in
  (forall o, In o (insert_answers t) -> snd (serve w req) = Ok forwarded) /\
  (insert_answers t = [] ->
     rows_inserted t = [] /\ docs_offered t = [] /\ blobs_created t = [] /\
     exists msg,
       snd (serve w req) = Ok (error_response msg) /\
       (createClient w (env_or_empty w "SUPABASE_URL")
                       (env_or_empty w "SUPABASE_SERVICE_ROLE_KEY") = Throw msg \/
        createClient w (env_or_empty w "SUPABASE_URL")
                       (env_or_empty w "SUPABASE_ANON_KEY") = Throw msg \/
        exists c row,
          createClient w (env_or_empty w "SUPABASE_URL")
                         (env_or_empty w "SUPABASE_SERVICE_ROLE_KEY") = Ok c /\
          insert w c "api_logs" row = Throw msg)).
Proof.
  intros Hm Ht. cbv zeta.
  destruct (OutcomeFacts.serve_view w req target Hm Ht)
    as (tf & f & rb & Hf & Hsv & Hia & _ & _ & Hri & Hdo & Hbc & _).
  cbv zeta in *.
  destruct (StageFacts.forward_returns w target (method req)
              (forwardHeaders req) (req_body req)) as (tf' & f' & Hf' & _ & Hsp).
  rewrite Hf in Hf'. inversion Hf'; subst tf' f'. clear Hf'.
  assert (Hresp : response f
                  = match fetch w target (method req) (forwardHeaders req)
                                (req_body req) with
                    | Ok r => r
                    | Throw e => bad_gateway e
                    end).
  { destruct (fetch w target _ _ _); now destruct Hsp as (-> & _). }
  rewrite Hsv, Hia, Hri, Hdo, Hbc. clear Hsv Hia Hri Hdo Hbc.
  destruct (OutcomeFacts.log_exchange_outcome w (method req) target
              (requestHeaders req) rb f
              (Date_now_after w - Date_now_before w))
    as [(o' & Hans & Hok & _)|(Hnone & H1 & H2 & H3 & msg & Hthrow & Hwhy)].
  - rewrite Hok, Hans, <- Hresp. split; [reflexivity|]. discriminate.
  - rewrite Hthrow, Hnone. split; [intros o []|]. intros _.
    split; [exact H1|]. split; [exact H2|]. split; [exact H3|].
    exists msg. split; [reflexivity|].
    destruct Hwhy as [H|[H|(c & Hc & Hi)]]; [now left | right; now left|].
    right; right. eexists c, _. split; [exact Hc | exact Hi].
Qed.

Lemma X21_logging_changes_the_response_only_by_throwing_witness :
  snd (serve (Worlds.deployed_without_table upstream_json)
             (GET "/functions/v1/capture/openai/v1/models")) = Ok upstream_json /\
  insert_answers
    (fst (serve (Worlds.deployed_without_table upstream_json)
                (GET "/functions/v1/capture/openai/v1/models")))
    = [Some "relation api_logs does not exist"].
Proof.
  destruct (X21_logging_changes_the_response_only_by_throwing
              (Worlds.deployed_without_table upstream_json)
              (GET "/functions/v1/capture/openai/v1/models")
              "https://api.openai.com/v1/models")
    as (Hans & _).
  - discriminate.
  - reflexivity.
  - split; [|reflexivity].
    apply (Hans (Some "relation api_logs does not exist")). left. reflexivity.
Defined.

(** X22: an upstream response whose content type includes
    [text/event-stream] is never read by the handler, whatever its body;
    every record handed to a sink holds the sentinel
    [[STREAMING RESPONSE]] as its response body; and in a run whose insert
    call is answered the caller gets the upstream's response object itself
    and the table is handed one row, holding the sentinel. *)
Theorem X22_event_stream_is_never_read
    (w : World) (req : Request) (target : string) (r : Response) :
  method req <> "OPTIONS" ->
  targetUrl w req = Ok target ->
  fetch w target (method req) (forwardHeaders req) (req_body req) = Ok r ->
  isStreaming r = true ->
  let t := fst (serve w req) in
  response_reads t = [] /\
  fetched t = [r] /\
  Forall (fun row => response_body row = Some "[STREAMING RESPONSE]")
         (rows_offered t) /\
  Forall (fun doc => entry_response_body doc = Some "[STREAMING RESPONSE]")
         (docs_offered t) /\
  (forall o, In o (insert_answers t) ->
     snd (serve w req) = Ok r /\
     exists row, rows_offered t = [row] /\
                 response_body row = Some "[STREAMING RESPONSE]").
Proof.
  intros Hm Ht Hfetch Hs. cbv zeta.
  destruct (OutcomeFacts.serve_view w req target Hm Ht)
    as (tf & f & rb & Hf & Hsv & Hia & _ & Hro & _ & Hdo & _ & _ & _ & _
        & Hrr & Hfe & _).
  cbv zeta in *.
  rewrite (StageFacts.forward_streaming _ _ _ _ _ _ Hfetch Hs) in Hf.
  inversion Hf; subst tf f. clear Hf.
  rewrite Hsv, Hia, Hro, Hdo, Hrr, Hfe. clear Hsv Hia Hro Hdo Hrr Hfe.
  match goal with
  | |- context [log_exchange w ?m ?t ?rh ?rb ?f ?d] =>
      pose proof (OutcomeFacts.log_exchange_outcome w m t rh rb f d) as Hout;
      destruct (StageFacts.log_exchange_records w m t rh rb f d)
        as (_ & Hrows & Hdocs)
  end.
  cbv zeta in Hout, Hrows, Hdocs.
  split; [reflexivity|]. split; [reflexivity|].
  split; [eapply Forall_impl; [|exact Hrows]; now intros row ->|].
  split; [eapply Forall_impl; [|exact Hdocs]; now intros doc ->|].
  intros o Hin.
  destruct Hout as [(o' & _ & Hok & Hrow)|(Hnone & _)];
    [|rewrite Hnone in Hin; destruct Hin].
  rewrite Hok, Hrow. split; [reflexivity|].
  eexists. split; reflexivity.
Qed.

Lemma X22_event_stream_is_never_read_witness :
  response_reads
    (fst (serve (Worlds.deployed upstream_sse)
                (POST_json "/functions/v1/capture/anthropic/v1/messages" "{}"))) = [] /\
  snd (serve (Worlds.deployed upstream_sse)
             (POST_json "/functions/v1/capture/anthropic/v1/messages" "{}"))
    = Ok upstream_sse /\
  exists row,
    rows_offered
      (fst (serve (Worlds.deployed upstream_sse)
                  (POST_json "/functions/v1/capture/anthropic/v1/messages" "{}")))
      = [row] /\
    response_body row = Some "[STREAMING RESPONSE]".
Proof.
  destruct (X22_event_stream_is_never_read
              (Worlds.deployed upstream_sse)
              (POST_json "/functions/v1/capture/anthropic/v1/messages" "{}")
              "https://api.anthropic.com/v1/messages" upstream_sse)
    as (Hreads & _ & _ & _ & Hans).
  - discriminate.
  - reflexivity.
  - reflexivity.
  - reflexivity.
  - split; [exact Hreads|]. apply (Hans None). left. reflexivity.
Defined.
